(** * A video ingestion and retrieval service: [main.py] and [schemas.py]

    The service keeps uploaded files in a storage directory and one
    MongoDB collection of [Video] documents.  The four request handlers
    ([upload_video], [list_videos], [get_video], [stream_file]) are
    embedded as functions that pass the state of the two stores
    explicitly; what the environment chooses (generated identifiers, the
    clock, I/O failures) is an explicit argument. *)

From Stdlib Require Import ZArith NArith Ascii String List Lia.
From stdpp Require Import base gmap strings list.

Local Open Scope Z_scope.

(** ** Python strings

    A Python [str] is modelled as a Rocq [string]; one [ascii] stands for
    one code point below 256. *)

Module Py.

(** [str.isspace] on the code points below 256: the characters that
    [str.strip()] removes. *)
Definition is_space (c : ascii) : bool :=
  match c with
  | "009" | "010" | "011" | "012" | "013"
  | "028" | "029" | "030" | "031" | " "
  | "133" | "160" => true
  | _ => false
  end%char.

Fixpoint lstrip (s : string) : string :=
  match s with
  | "" => ""
  | String c s' => if is_space c then lstrip s' else s
  end.

Fixpoint rstrip (s : string) : string :=
  match s with
  | "" => ""
  | String c s' =>
      match rstrip s' with
      | "" => if is_space c then "" else String c ""
      | r => String c r
      end
  end.

(** [s.strip()] *)
Definition strip (s : string) : string := lstrip (rstrip s).

(** [s.split(sep)] for a one-character separator: never the empty list. *)
Fixpoint split (sep : ascii) (s : string) : list string :=
  match s with
  | "" => [""]
  | String c s' =>
      if decide (c = sep) then "" :: split sep s'
      else match split sep s' with
           | piece :: rest => String c piece :: rest
           | [] => [String c ""]
           end
  end.

(** Truth value of a [str]: the empty string is falsy. *)
Definition truthy (s : string) : bool :=
  match s with "" => false | _ => true end.

(** [x or d] for an [Optional[str]] on the left: [None] and [""] are
    both falsy. *)
Definition or_else (x : option string) (d : string) : string :=
  match x with
  | Some s => if truthy s then s else d
  | None => d
  end.

(** [s.startswith(p)] *)
Fixpoint startswith (s p : string) : bool :=
  match p, s with
  | "", _ => true
  | String a p', String b s' => bool_decide (b = a) && startswith s' p'
  | String _ _, "" => false
  end.

(** [c in s] for one character. *)
Fixpoint has_char (c : ascii) (s : string) : bool :=
  match s with
  | "" => false
  | String d s' => bool_decide (d = c) || has_char c s'
  end.

End Py.

(** ** The tag parser of [upload_video] (line 76)

    [[t.strip() for t in (tags or "").split(",") if t.strip()]] *)

Fixpoint strip_nonempty (pieces : list string) : list string :=
  match pieces with
  | [] => []
  | t :: rest =>
      if Py.truthy (Py.strip t) then Py.strip t :: strip_nonempty rest
      else strip_nonempty rest
  end.

Definition parse_tags (tags : option string) : list string :=
  strip_nonempty (Py.split "," (Py.or_else tags "")).

(** The rule of the data model, in the words of the specification: split
    on commas, trim every piece, drop the empty ones. *)
Definition spec_parse_tags (tags : string) : list string :=
  filter (λ t, t ≠ "") (map Py.strip (Py.split "," tags)).

(** [",".join(pieces)] *)
Fixpoint join (sep : ascii) (pieces : list string) : string :=
  match pieces with
  | [] => ""
  | [p] => p
  | p :: rest => p +:+ String sep (join sep rest)
  end.

(** ** bson.ObjectId

    An ObjectId is a 96-bit value; [str(oid)] is its 24 lower-case
    hexadecimal digits. *)

Definition ObjectId := N.

Definition hex_digit (d : N) : ascii :=
  match d with
  | 0 => "0" | 1 => "1" | 2 => "2" | 3 => "3" | 4 => "4" | 5 => "5"
  | 6 => "6" | 7 => "7" | 8 => "8" | 9 => "9" | 10 => "a" | 11 => "b"
  | 12 => "c" | 13 => "d" | 14 => "e" | _ => "f"
  end%N%char.

Fixpoint hex_of (digits : nat) (x : N) (acc : string) : string :=
  match digits with
  | O => acc
  | S k => hex_of k (x / 16)%N (String (hex_digit (x mod 16)%N) acc)
  end.

(** [str(oid)] *)
Definition oid_str (o : ObjectId) : string := hex_of 24 o "".

Definition is_hex_lower (c : ascii) : bool :=
  match c with
  | "0" | "1" | "2" | "3" | "4" | "5" | "6" | "7" | "8" | "9"
  | "a" | "b" | "c" | "d" | "e" | "f" => true
  | _ => false
  end%char.

Fixpoint string_forall (P : ascii → bool) (s : string) : bool :=
  match s with
  | "" => true
  | String c s' => P c && string_forall P s'
  end.

(** ** Documents of the MongoDB collection

    A stored value is one of the BSON types the service writes.  A
    document carries the [_id] the store assigned to it and its other
    fields as a dictionary.  Numbers are Python's integers, without a
    bound; the 64-bit range of BSON is not modelled. *)

Inductive value :=
| VNone
| VInt (n : Z)
| VStr (s : string)
| VList (l : list string)
| VDate (t : N).

Record document := Document {
  _id : ObjectId;
  fields : gmap string value
}.

(** [d.get(k)]: [None] when the key is absent. *)
Definition doc_get (d : document) (k : string) : value :=
  default VNone (fields d !! k).

(** [d.get(k, dflt)] *)
Definition doc_get_default (d : document) (k : string) (dflt : value) : value :=
  default dflt (fields d !! k).

(** ** Exceptions and results *)

Inductive exn :=
| HTTPException (status_code : Z) (detail : string)
| OSError                 (* the file could not be opened or written *)
| StorageWriteError       (* the metadata store refused the insertion *)
| WriteError              (* MongoDB: update not applicable to the document *)
| ValidationError         (* pydantic: a field constraint is violated *)
| RuntimeError.           (* FileResponse: the path is not a regular file *)

Inductive result (A : Type) :=
| Return (a : A)
| Raise (e : exn).
Arguments Return {A} a.
Arguments Raise {A} e.

(** The names the specification gives to the errors of the handlers. *)
Definition InvalidContentType : exn := HTTPException 400 "Only video files are allowed".
Definition InvalidIdentifier : exn := HTTPException 400 "Invalid video id".
Definition NotFound_video : exn := HTTPException 404 "Video not found".
Definition NotFound_file : exn := HTTPException 404 "File not found".

(** The specification's [NotFound]: status 404, whatever the detail. *)
Definition is_NotFound {A} (r : result A) : bool :=
  match r with
  | Raise (HTTPException 404 _) => true
  | _ => false
  end.

(** ** The MongoDB operations the service uses

    A collection is the list of its documents in insertion order. *)

Module Mongo.

(** *** [$regex]

    MongoDB hands the pattern to PCRE.  The model covers the patterns
    built from characters that stand for themselves and from [.], which
    matches every character but a line feed.  Any other metacharacter,
    and any character outside ASCII, puts the pattern outside the model:
    [compile] answers [None]. *)

Inductive atom :=
| Lit (c : ascii)
| AnyChar.

Definition is_meta (c : ascii) : bool :=
  match c with
  | "\" | "^" | "$" | "." | "[" | "]" | "|" | "(" | ")"
  | "?" | "*" | "+" | "{" | "}" => true
  | _ => false
  end%char.

Definition is_ascii7 (c : ascii) : bool :=
  match c with Ascii _ _ _ _ _ _ _ b7 => negb b7 end.

Definition compile_char (c : ascii) : option atom :=
  if decide (c = "."%char) then Some AnyChar
  else if is_meta c || negb (is_ascii7 c) then None
  else Some (Lit c).

Fixpoint compile (pattern : string) : option (list atom) :=
  match pattern with
  | "" => Some []
  | String c rest =>
      match compile_char c, compile rest with
      | Some a, Some p => Some (a :: p)
      | _, _ => None
      end
  end.

(** ASCII lower-casing: the case folding of option [i]. *)
Definition lower (c : ascii) : ascii :=
  let n := N_of_ascii c in
  if ((65 <=? n) && (n <=? 90))%N then ascii_of_N (n + 32) else c.

Definition atom_match (caseless : bool) (a : atom) (d : ascii) : bool :=
  match a with
  | Lit c => if caseless then bool_decide (lower c = lower d) else bool_decide (c = d)
  | AnyChar => negb (bool_decide (d = "010"%char))
  end.

(** The pattern matches at the start of [s]. *)
Fixpoint match_here (caseless : bool) (p : list atom) (s : string) : bool :=
  match p, s with
  | [], _ => true
  | a :: p', String d s' => atom_match caseless a d && match_here caseless p' s'
  | _ :: _, "" => false
  end.

(** The pattern matches somewhere in [s] (no anchors in the fragment). *)
Fixpoint search (caseless : bool) (p : list atom) (s : string) : bool :=
  match_here caseless p s ||
  match s with
  | "" => false
  | String _ s' => search caseless p s'
  end.

(** A filter document, as far as [list_videos] builds them:
    [{}] or [{"$or": [{field: {"$regex": q, "$options": o}}, ...]}]. *)
Record regex := Regex { pattern : string; options : string }.

Inductive filter_dict :=
| FEmpty
| FOr (clauses : list (string * regex)).

(** [{field: regex}] on one document: a string field is searched, an
    array field matches when one of its elements does, a missing field
    or a field of another type never matches. *)
Definition regex_field (caseless : bool) (p : list atom) (d : document) (field : string) : bool :=
  match fields d !! field with
  | Some (VStr s) => search caseless p s
  | Some (VList l) => existsb (search caseless p) l
  | _ => false
  end.

Fixpoint compile_clauses (clauses : list (string * regex))
  : option (list (string * bool * list atom)) :=
  match clauses with
  | [] => Some []
  | (field, r) :: rest =>
      match compile (pattern r), compile_clauses rest with
      | Some p, Some cs => Some ((field, Py.has_char "i" (options r), p) :: cs)
      | _, _ => None
      end
  end.

Definition matches_or (cs : list (string * bool * list atom)) (d : document) : bool :=
  existsb (λ '(field, caseless, p), regex_field caseless p d field) cs.

(** [collection.find(filter)]: [None] when a pattern is outside the
    modelled fragment. *)
Definition find (c : list document) (f : filter_dict) : option (list document) :=
  match f with
  | FEmpty => Some c
  | FOr clauses =>
      match compile_clauses clauses with
      | Some cs => Some (List.filter (matches_or cs) c)
      | None => None
      end
  end.

(** *** [find_one_and_update]

    The update document, as far as [get_video] builds it:
    [{"$inc": {...}, "$set": {...}}]. *)
Record update := Update {
  inc : list (string * Z);
  set : list (string * value)
}.

(** [$inc]: an absent field is created with the increment; a field that
    is not a number makes the update fail. *)
Definition apply_inc (f : option (gmap string value)) (kd : string * Z)
  : option (gmap string value) :=
  match f with
  | None => None
  | Some m =>
      match m !! kd.1 with
      | None => Some (<[kd.1 := VInt kd.2]> m)
      | Some (VInt n) => Some (<[kd.1 := VInt (n + kd.2)]> m)
      | Some _ => None
      end
  end.

Definition apply_set (m : gmap string value) (kv : string * value) : gmap string value :=
  <[kv.1 := kv.2]> m.

Definition apply_update (u : update) (d : document) : option document :=
  match fold_left apply_inc (inc u) (Some (fields d)) with
  | Some m => Some (Document (_id d) (fold_left apply_set (set u) m))
  | None => None
  end.

(** [collection.find_one_and_update({"_id": oid}, u,
    return_document=ReturnDocument.AFTER)]: one indivisible step of the
    store.  The first document with that [_id] is updated in place and
    returned as it is after the update; [None] when there is none. *)
Fixpoint find_one_and_update (c : list document) (oid : ObjectId) (u : update)
  : result (option document) * list document :=
  match c with
  | [] => (Return None, [])
  | d :: c' =>
      if decide (_id d = oid) then
        match apply_update u d with
        | Some d' => (Return (Some d'), d' :: c')
        | None => (Raise WriteError, d :: c')
        end
      else
        let '(r, c'') := find_one_and_update c' oid u in (r, d :: c'')
  end.

(** [find_one({"_id": oid})], to speak about the stored record. *)
Definition find_one (c : list document) (oid : ObjectId) : option document :=
  List.find (λ d, bool_decide (_id d = oid)) c.

End Mongo.

(** ** Paths ([os.path], POSIX flavour) *)

Module os_path.

Fixpoint endswith_char (c : ascii) (s : string) : bool :=
  match s with
  | "" => false
  | String d "" => bool_decide (d = c)
  | String _ s' => endswith_char c s'
  end.

(** [os.path.join(a, b)] *)
Definition join (a b : string) : string :=
  if Py.startswith b "/" then b
  else if bool_decide (a = "") || endswith_char "/" a then a +:+ b
  else a +:+ "/" +:+ b.

(** [s.rfind(c)]: the highest index of [c] in [s], or -1. *)
Fixpoint rfind (c : ascii) (s : string) : Z :=
  match s with
  | "" => -1
  | String d s' =>
      let r := rfind c s' in
      if 0 <=? r then r + 1
      else if decide (d = c) then 0 else -1
  end.

Fixpoint take (n : nat) (s : string) : string :=
  match n, s with
  | S n', String c s' => String c (take n' s')
  | _, _ => ""
  end.

Fixpoint drop (n : nat) (s : string) : string :=
  match n, s with
  | S n', String _ s' => drop n' s'
  | _, _ => s
  end.

(** The loop of [genericpath._splitext]: is there a character other
    than the dot in [p[filenameIndex:dotIndex]]? *)
Fixpoint has_non_dot (s : string) : bool :=
  match s with
  | "" => false
  | String c s' => negb (bool_decide (c = "."%char)) || has_non_dot s'
  end.

(** [os.path.splitext(p)]: the extension starts at the last dot of the
    last path component, leading dots of that component apart. *)
Definition splitext (p : string) : string * string :=
  let sepIndex := rfind "/" p in
  let dotIndex := rfind "." p in
  if sepIndex <? dotIndex then
    let filenameIndex := sepIndex + 1 in
    if has_non_dot (take (Z.to_nat (dotIndex - filenameIndex))
                         (drop (Z.to_nat filenameIndex) p))
    then (take (Z.to_nat dotIndex) p, drop (Z.to_nat dotIndex) p)
    else (p, "")
  else (p, "").

End os_path.

(** ** The state of the two stores

    [blobs] holds the regular files of the storage directory by entry
    name: the directory is flat, the service creates no subdirectory.
    Every other path of the machine is left to [outside].  [video] is the
    MongoDB collection. *)

Inductive node :=
| RegularFile (content : list Byte.byte)
| Directory.

Record World := mkWorld {
  blobs : gmap string (list Byte.byte);
  outside : string → option node;
  video : list document
}.

Definition STORAGE_DIR : string := "uploads".

Fixpoint strip_prefix (p s : string) : option string :=
  match p, s with
  | "", _ => Some s
  | String a p', String b s' => if decide (a = b) then strip_prefix p' s' else None
  | String _ _, "" => None
  end.

(** The entry of the storage directory a path names, when it is of the
    form [uploads/<name>] with no further separator. *)
Definition storage_entry (path : string) : option string :=
  match strip_prefix (STORAGE_DIR +:+ "/") path with
  | Some name => if Py.has_char "/" name then None else Some name
  | None => None
  end.

(** In the directory (line 23 creates it) the names [.] and [..] and the
    empty name resolve to directories. *)
Definition is_dot (name : string) : bool :=
  bool_decide (name = "") || bool_decide (name = ".") || bool_decide (name = "..").

Definition lookup_path (w : World) (path : string) : option node :=
  match storage_entry path with
  | Some name =>
      if is_dot name then Some Directory
      else RegularFile <$> blobs w !! name
  | None => outside w path
  end.

(** [os.path.exists(path)]: true of files and of directories. *)
Definition os_path_exists (w : World) (path : string) : bool :=
  match lookup_path w path with
  | Some _ => true
  | None => false
  end.

(** What the disk does with [open(path, "wb")] followed by [f.write]. *)
Inductive write_outcome :=
| Written
| OpenFailed
| WriteFailed (written : nat).   (* the file keeps a prefix of the content *)

(** [with open(path, "wb") as f: f.write(content)].  The service writes
    entries of the storage directory only (lemma [destination_entry]
    below); a path elsewhere is counted as a failed open. *)
Definition write_file (o : write_outcome) (w : World) (path : string)
    (content : list Byte.byte) : result unit * World :=
  match storage_entry path with
  | Some name =>
      if is_dot name then (Raise OSError, w)
      else match o with
           | Written =>
               (Return tt, mkWorld (<[name := content]> (blobs w)) (outside w) (video w))
           | OpenFailed => (Raise OSError, w)
           | WriteFailed k =>
               (Raise OSError,
                mkWorld (<[name := List.firstn k content]> (blobs w)) (outside w) (video w))
           end
  | None => (Raise OSError, w)
  end.

(** ** [schemas.py]: the [Video] model *)

Module Video.

Record t := mk {
  title : string;
  description : option string;
  filename : string;
  content_type : string;
  size : Z;
  views : Z;
  tags : option (list string)
}.

(** The field constraints: [size] and [views] are declared [ge=0]. *)
Definition validate (v : t) : result t :=
  if (0 <=? size v) && (0 <=? views v) then Return v else Raise ValidationError.

(** [Video(title=..., description=..., filename=..., content_type=...,
    size=..., tags=...)]: [views] takes its default 0. *)
Definition new (title : string) (description : option string)
    (filename content_type : string) (size : Z) (tags : list string) : result t :=
  validate (mk title description filename content_type size 0 (Some tags)).

Definition opt_str (o : option string) : value :=
  match o with Some s => VStr s | None => VNone end.

Definition opt_list (o : option (list string)) : value :=
  match o with Some l => VList l | None => VNone end.

(** [model_dump()] *)
Definition model_dump (v : t) : gmap string value :=
  <["title" := VStr (title v)]>
  (<["description" := opt_str (description v)]>
  (<["filename" := VStr (filename v)]>
  (<["content_type" := VStr (content_type v)]>
  (<["size" := VInt (size v)]>
  (<["views" := VInt (views v)]>
  (<["tags" := opt_list (tags v)]> ∅)))))).

End Video.

(** ** [database.py]: the helpers the handlers import *)

(** Modelled from the spec: [create_document] of [database.py] is not
    among the sources.  It is the Metadata Store's [Insert(record) -> id]:
    the store assigns a unique identifier and the creation time and
    returns the identifier as a string, or fails with [StorageWriteError].
    The environment supplies the identifier and the time, or [None] for a
    failing store; an identifier already in use is refused. *)
Definition create_document (ins : option (ObjectId * N)) (c : list document)
    (data : Video.t) : result string * list document :=
  match ins with
  | None => (Raise StorageWriteError, c)
  | Some (oid, now) =>
      match Mongo.find_one c oid with
      | Some _ => (Raise StorageWriteError, c)
      | None =>
          (Return (oid_str oid),
           c ++ [Document oid (<["created_at" := VDate now]> (Video.model_dump data))])
      end
  end.

(** Modelled from the spec: [get_documents] of [database.py] is not among
    the sources.  It is the Metadata Store's [Find(predicate)]: all
    matching records in insertion order, all records for the empty
    filter. *)
Definition get_documents (c : list document) (filter_dict : Mongo.filter_dict)
  : option (list document) :=
  Mongo.find c filter_dict.

(** ** [main.py]: the request handlers *)

(** The uploaded file as the framework hands it over: [size] is the
    length the client declared. *)
Module UploadFile.
Record t := mk {
  filename : option string;
  content_type : option string;
  size : option Z;
  file : list Byte.byte
}.
(** [await file.read()] *)
Definition read (f : t) : list Byte.byte := file f.
End UploadFile.

(** What the environment decides during one upload. *)
Record env := mkEnv {
  new_ObjectId : ObjectId;            (* [ObjectId()] of line 68 *)
  disk : write_outcome;               (* the file write of lines 73-74 *)
  insert : option (ObjectId * N)      (* identifier and clock of the insertion *)
}.

(** Line 68: the generated name with the extension of the client's file
    name. *)
Definition safe_name (e : env) (file : UploadFile.t) : string :=
  oid_str (new_ObjectId e)
  +:+ (os_path.splitext (Py.or_else (UploadFile.filename file) "")).2.

(** Line 79: [title or (file.filename or "Untitled")] *)
Definition default_title (title : option string) (file : UploadFile.t) : string :=
  Py.or_else title (Py.or_else (UploadFile.filename file) "Untitled").

(** [POST /api/videos] *)
Definition upload_video (e : env) (w : World) (file : UploadFile.t)
    (title description tags : option string) : result string * World :=
  match UploadFile.content_type file with
  | None => (Raise InvalidContentType, w)
  | Some content_type =>
      if negb (Py.startswith content_type "video/") then (Raise InvalidContentType, w)
      else
        let destination := os_path.join STORAGE_DIR (safe_name e file) in
        let content := UploadFile.read file in
        match write_file (disk e) w destination content with
        | (Raise x, w1) => (Raise x, w1)
        | (Return _, w1) =>
            let tag_list := parse_tags tags in
            match Video.new (default_title title file) description (safe_name e file)
                            content_type (Z.of_nat (length content)) tag_list with
            | Raise x => (Raise x, w1)
            | Return video_doc =>
                let '(r, c) := create_document (insert e) (video w1) video_doc in
                (r, mkWorld (blobs w1) (outside w1) c)
            end
        end
  end.

(** The document an accepted upload inserts. *)
Definition uploaded_document (e : env) (file : UploadFile.t)
    (title description tags : option string) (content_type : string)
    (oid : ObjectId) (now : N) : document :=
  Document oid
    (<["created_at" := VDate now]>
       (Video.model_dump
          (Video.mk (default_title title file) description (safe_name e file)
             content_type (Z.of_nat (length (UploadFile.file file))) 0
             (Some (parse_tags tags))))).

(** The dictionary both read handlers answer with. *)
Record VideoOut := mkVideoOut {
  out_id : string;
  out_title : value;
  out_description : value;
  out_filename : value;
  out_content_type : value;
  out_size : value;
  out_views : value;
  out_tags : value;
  out_created_at : value
}.

(** Every document read from the collection has its [_id]. *)
Definition project (d : document) : VideoOut :=
  mkVideoOut (oid_str (_id d))
    (doc_get d "title") (doc_get d "description") (doc_get d "filename")
    (doc_get d "content_type") (doc_get d "size")
    (doc_get_default d "views" (VInt 0)) (doc_get_default d "tags" (VList []))
    (doc_get d "created_at").

Definition truthy_opt (q : option string) : bool :=
  match q with Some s => Py.truthy s | None => false end.

(** [GET /api/videos]; [None] when [q] is a pattern outside the modelled
    fragment of [$regex]. *)
Definition list_videos (w : World) (q : option string) : option (list VideoOut) :=
  let filter_dict :=
    if truthy_opt q then
      let regex := Mongo.Regex (default "" q) "i" in
      Mongo.FOr [("title", regex); ("description", regex); ("tags", regex)]
    else Mongo.FEmpty in
  match get_documents (video w) filter_dict with
  | Some docs => Some (map project docs)
  | None => None
  end.

(** The update document of line 128. *)
Definition view_update : Mongo.update :=
  Mongo.Update [("views", 1)] [("updated_at", VNone)].

(** The counter as the handlers read it: [d.get("views", 0)]. *)
Definition stored_views (d : document) : Z :=
  match doc_get_default d "views" (VInt 0) with
  | VInt n => n
  | _ => 0
  end.

(** [$inc] applies to a number or to an absent field. *)
Definition countable_views (d : document) : bool :=
  match fields d !! "views" with
  | None | Some (VInt _) => true
  | Some _ => false
  end.

(** The document after the update of line 128. *)
Definition viewed (d : document) : document :=
  Document (_id d)
    (<["updated_at" := VNone]> (<["views" := VInt (stored_views d + 1)]> (fields d))).

(** Lines 126-144 of [get_video]: the single call to the store and the
    answer built from what it returns. *)
Definition get_video_store (w : World) (oid : ObjectId) : result VideoOut * World :=
  let '(r, c) := Mongo.find_one_and_update (video w) oid view_update in
  let w' := mkWorld (blobs w) (outside w) c in
  match r with
  | Raise x => (Raise x, w')
  | Return None => (Raise NotFound_video, w')
  | Return (Some doc) => (Return (project doc), w')
  end.

(** [GET /api/videos/{video_id}].  [ObjectId_of_str] is the constructor
    [ObjectId(video_id)] of bson: [None] when it raises. *)
Definition get_video (ObjectId_of_str : string → option ObjectId)
    (w : World) (video_id : string) : result VideoOut * World :=
  match ObjectId_of_str video_id with
  | None => (Raise InvalidIdentifier, w)
  | Some oid => get_video_store w oid
  end.

(** bson's rule for a string: 24 hexadecimal digits, either case. *)
Definition hex_value (c : ascii) : option N :=
  let n := N_of_ascii c in
  if ((48 <=? n) && (n <=? 57))%N then Some (n - 48)%N          (* 0-9 *)
  else if ((97 <=? n) && (n <=? 102))%N then Some (n - 87)%N    (* a-f *)
  else if ((65 <=? n) && (n <=? 70))%N then Some (n - 55)%N     (* A-F *)
  else None.

Fixpoint parse_hex (s : string) (acc : N) : option N :=
  match s with
  | "" => Some acc
  | String c s' =>
      match hex_value c with
      | Some d => parse_hex s' (acc * 16 + d)%N
      | None => None
      end
  end.

Definition ObjectId_of_hex (s : string) : option ObjectId :=
  if Nat.eqb (String.length s) 24 then parse_hex s 0%N else None.

(** [GET /stream/{filename}] *)
Record FileResponse := mkFileResponse { path : string; media_type : string }.

Definition stream_file (w : World) (filename : string) : result FileResponse :=
  let path := os_path.join STORAGE_DIR filename in
  if negb (os_path_exists w path) then Raise NotFound_file
  else Return (mkFileResponse path "application/octet-stream").

(** Sending a [FileResponse]: the bytes of the regular file at its path. *)
Definition send (w : World) (r : FileResponse) : result (list Byte.byte) :=
  match lookup_path w (path r) with
  | Some (RegularFile content) => Return content
  | _ => Raise RuntimeError
  end.

(** The path parameter of the route [/stream/{filename}] is one non-empty
    segment: it holds no separator. *)
Definition path_segment (s : string) : bool :=
  Py.truthy s && negb (Py.has_char "/" s).

(** ** Concurrent calls of [get_video]

    A call in flight has parsed its identifier or not, or has answered.
    Between the two steps of a call any other call may run; the store call
    itself is the one indivisible [find_one_and_update]. *)

Inductive call :=
| Called (video_id : string)
| AtStore (oid : ObjectId)
| Done (r : result VideoOut).

Section Interleaving.

Variable ObjectId_of_str : string → option ObjectId.

Inductive step : list call * World → list call * World → Prop :=
| step_parse pool w i video_id oid :
    pool !! i = Some (Called video_id) →
    ObjectId_of_str video_id = Some oid →
    step (pool, w) (<[i := AtStore oid]> pool, w)
| step_reject pool w i video_id :
    pool !! i = Some (Called video_id) →
    ObjectId_of_str video_id = None →
    step (pool, w) (<[i := Done (Raise InvalidIdentifier)]> pool, w)
| step_store pool w i oid r w' :
    pool !! i = Some (AtStore oid) →
    get_video_store w oid = (r, w') →
    step (pool, w) (<[i := Done r]> pool, w').

Definition is_done (c : call) : bool :=
  match c with Done _ => true | _ => false end.

(** The [views] a finished call answered with. *)
Definition answer (c : call) : option value :=
  match c with
  | Done (Return out) => Some (out_views out)
  | _ => None
  end.

(** The [views] the finished calls answered with, in pool order. *)
Fixpoint answered_views (pool : list call) : list value :=
  match pool with
  | [] => []
  | c :: pool' =>
      match answer c with
      | Some v => v :: answered_views pool'
      | None => answered_views pool'
      end
  end.

(** How far a call has got: a step moves one call forward by one or
    two. *)
Definition stage (c : call) : nat :=
  match c with Called _ => 0 | AtStore _ => 1 | Done _ => 2 end.

Fixpoint stages (pool : list call) : nat :=
  match pool with
  | [] => 0
  | c :: pool' => stage c + stages pool'
  end.

End Interleaving.

(** What holds of every state that [n] calls for the same stored record
    reach: each call is at one of its three points, the stored counter has
    advanced by the number of answers given, and the answers carry the
    counter values in between, each once. *)
Definition views_inv (video_id : string) (oid : ObjectId) (v0 : Z)
    (st : list call * World) : Prop :=
  Forall (λ c, c = Called video_id ∨ c = AtStore oid ∨ ∃ out, c = Done (Return out)) st.1
  ∧ (∃ d, Mongo.find_one (video st.2) oid = Some d
          ∧ countable_views d = true
          ∧ stored_views d = v0 + Z.of_nat (length (answered_views st.1)))
  ∧ answered_views st.1
      ≡ₚ (λ j, VInt (v0 + Z.of_nat j)) <$> seq 1 (length (answered_views st.1)).

(** The test of line 64 passes: a MIME type is declared and begins with
    [video/]. *)
Definition is_video (file : UploadFile.t) : bool :=
  match UploadFile.content_type file with
  | Some content_type => Py.startswith content_type "video/"
  | None => false
  end.

(** ** The search rule in the words of the specification

    [q] occurs in [s] as a substring, letter case apart. *)

Fixpoint lower_str (s : string) : string :=
  match s with
  | "" => ""
  | String c s' => String (Mongo.lower c) (lower_str s')
  end.

Definition ci_substring (q s : string) : Prop :=
  ∃ pre post, lower_str s = pre +:+ lower_str q +:+ post.

Fixpoint ci_prefix (q s : string) : bool :=
  match q, s with
  | "", _ => true
  | String a q', String b s' =>
      bool_decide (Mongo.lower a = Mongo.lower b) && ci_prefix q' s'
  | String _ _, "" => false
  end.

(** The decision procedure for [ci_substring]. *)
Fixpoint ci_contains (q s : string) : bool :=
  ci_prefix q s ||
  match s with
  | "" => false
  | String _ s' => ci_contains q s'
  end.

(** [q] occurs in a stored value: in the string, or in one element of
    the list. *)
Definition occurs_in (q : string) (v : option value) : bool :=
  match v with
  | Some (VStr s) => ci_contains q s
  | Some (VList l) => existsb (ci_contains q) l
  | _ => false
  end.

(** A record is selected when [q] occurs in its title, or in its
    description, or in one of its tags. *)
Definition spec_selected (q : string) (d : document) : bool :=
  occurs_in q (fields d !! "title")
  || occurs_in q (fields d !! "description")
  || occurs_in q (fields d !! "tags").

(** The patterns in which every character stands for itself. *)
Definition literal_char (c : ascii) : bool :=
  negb (Mongo.is_meta c) && Mongo.is_ascii7 c.

(** ** A small run, for examples *)

Definition empty_world : World := mkWorld ∅ (λ _, None) [].

Definition demo_file : UploadFile.t :=
  UploadFile.mk (Some "cat.mp4") (Some "video/mp4") (Some 99)
    [Byte.x01; Byte.x02; Byte.x03].

Definition demo_env : env := mkEnv 255%N Written (Some (4096%N, 7%N)).

(** The world after one upload into the empty one. *)
Definition demo_world : World :=
  (upload_video demo_env empty_world demo_file None (Some "d") (Some "Cat, x")).2.

Definition demo_id : string := "000000000000000000001000".

(** Two calls for the record of the first upload, the second one reaching
    the store first. *)
Definition demo_first : result VideoOut * World := get_video_store demo_world 4096%N.
Definition demo_second : result VideoOut * World := get_video_store demo_first.2 4096%N.

(** A second upload, titled by the caller. *)
Definition demo_env2 : env := mkEnv 256%N Written (Some (4097%N, 8%N)).

Definition demo_world2 : World :=
  (upload_video demo_env2 demo_world demo_file (Some "Dog") None (Some "pets")).2.

Definition demo_image : UploadFile.t :=
  UploadFile.mk (Some "cat.png") (Some "image/png") (Some 3)
    [Byte.x01; Byte.x02; Byte.x03].

(** The record of that upload, as stored. *)
Definition demo_doc : document :=
  default (Document 0%N ∅) (Mongo.find_one (video demo_world) 4096%N).

(** ** The routes, one request after the other

    The four routes of the application as requests; a sequence of them is
    served in order, each on the stores the previous one left. *)

Inductive request :=
| POST_videos (e : env) (file : UploadFile.t) (title description tags : option string)
| GET_videos (q : option string)
| GET_video (video_id : string)
| GET_stream (filename : string).

(** The stores after one request: the two reading routes change
    nothing. *)
Definition handle (ObjectId_of_str : string → option ObjectId)
    (w : World) (r : request) : World :=
  match r with
  | POST_videos e file title description tags =>
      (upload_video e w file title description tags).2
  | GET_video video_id => (get_video ObjectId_of_str w video_id).2
  | GET_videos _ | GET_stream _ => w
  end.

Definition run (ObjectId_of_str : string → option ObjectId)
    (w : World) (rs : list request) : World :=
  fold_left (handle ObjectId_of_str) rs w.

(** The name under which a request stores a file, if it is an upload. *)
Definition stored_name (r : request) : option string :=
  match r with
  | POST_videos e file _ _ _ => Some (safe_name e file)
  | _ => None
  end.

(** The record names a file of the storage directory that is there. *)
Definition has_blob (w : World) (d : document) : Prop :=
  ∃ key,
    fields d !! "filename" = Some (VStr key)
    ∧ Py.has_char "/" key = false
    ∧ is_dot key = false
    ∧ is_Some (blobs w !! key).


(** ** [GET /test]: the diagnostic route

    The database handle [db] of [database.py] is [None] or a database
    object, of which the route reads the attribute [name] (when there is
    one) and calls [list_collection_names()], which answers or raises with
    a message.  Nothing else inside the outer [try] raises, so its handler
    is not reached.  The literal texts are kept byte for byte. *)

Module Diagnostic.

Inductive listing :=
| Listed (names : list string)
| ListingFailed (message : string).

Record Database := mkDatabase {
  name : option string;
  list_collection_names : listing
}.

Record diagnosis := mkDiagnosis {
  backend : string;
  database : string;
  database_url : option string;
  database_name : option string;
  connection_status : string;
  collections : list string
}.

(** [s[:n]] *)
Definition str_take (n : nat) (s : string) : string := os_path.take n s.

(** [os.getenv("DATABASE_URL")] is passed as [url]. *)
Definition test_database (db : option Database) (url : option string) : diagnosis :=
  match db with
  | Some d =>
      let database_url := Some (if truthy_opt url then "✅ Set" else "❌ Not Set") in
      let database_name := Some (default "❌ Unknown" (name d)) in
      match list_collection_names d with
      | Listed collections =>
          mkDiagnosis "✅ Running" "✅ Connected & Working" database_url database_name
            "Connected" (List.firstn 10 collections)
      | ListingFailed e =>
          mkDiagnosis "✅ Running" ("⚠️  Connected but Error: " +:+ str_take 50 e)
            database_url database_name "Connected" []
      end
  | None =>
      mkDiagnosis "✅ Running" "⚠️  Available but not initialized" None None
        "Not Connected" []
  end.

End Diagnostic.

(** * Properties *)

(** ** Strings *)

Lemma rstrip_lstrip s : Py.rstrip (Py.lstrip s) = Py.lstrip (Py.rstrip s).
Proof.
  induction s as [|c s IH]; [done|]. simpl.
  destruct (Py.is_space c) eqn:Hc.
  - rewrite IH. destruct (Py.rstrip s) eqn:Hr; simpl; by rewrite ?Hc.
  - simpl. destruct (Py.rstrip s); simpl; by rewrite Hc.
Qed.

Lemma lstrip_idemp s : Py.lstrip (Py.lstrip s) = Py.lstrip s.
Proof.
  induction s as [|c s IH]; [done|]. simpl.
  destruct (Py.is_space c) eqn:Hc; [done|]. simpl. by rewrite Hc.
Qed.

Lemma rstrip_idemp s : Py.rstrip (Py.rstrip s) = Py.rstrip s.
Proof.
  induction s as [|c s IH]; [done|]. simpl.
  destruct (Py.rstrip s) as [|d r] eqn:Hr.
  - destruct (Py.is_space c) eqn:Hc; simpl; by rewrite ?Hc.
  - simpl in *. by rewrite IH.
Qed.

(** Stripping twice is stripping once: a stripped string has no white
    space left at either end. *)
Lemma strip_idemp s : Py.strip (Py.strip s) = Py.strip s.
Proof.
  unfold Py.strip.
  by rewrite rstrip_lstrip, rstrip_idemp, lstrip_idemp.
Qed.

Lemma split_nonnil sep s : Py.split sep s ≠ [].
Proof.
  destruct s as [|c s]; simpl; [done|].
  case_decide; [done|]. by destruct (Py.split sep s).
Qed.

(** Splitting cuts at the separators and nowhere else: joining the
    pieces with the separator gives the string back. *)
Lemma join_split sep s : join sep (Py.split sep s) = s.
Proof.
  induction s as [|c s IH]; [done|]. simpl.
  case_decide as Hc.
  - subst c. pose proof (split_nonnil sep s).
    destruct (Py.split sep s) eqn:E; [done|]. simpl in *. by rewrite IH.
  - pose proof (split_nonnil sep s).
    destruct (Py.split sep s) as [|p rest] eqn:E; [done|].
    destruct rest; simpl in *; by rewrite <- IH.
Qed.

Lemma split_no_sep sep s :
  Forall (λ p, Py.has_char sep p = false) (Py.split sep s).
Proof.
  induction s as [|c s IH]; simpl; [by constructor|].
  case_decide as Hc.
  - by constructor.
  - pose proof (split_nonnil sep s).
    destruct (Py.split sep s) as [|p rest]; [done|].
    inversion IH; subst. constructor; [|done].
    simpl. rewrite bool_decide_eq_false_2; done.
Qed.

Lemma strip_nonempty_filter pieces :
  strip_nonempty pieces = filter (λ t, t ≠ "") (map Py.strip pieces).
Proof.
  induction pieces as [|t rest IH]; [done|]. simpl.
  destruct (Py.strip t) eqn:E; simpl.
  - rewrite filter_cons_False; [done|]. by intros ?.
  - rewrite filter_cons_True; [|done]. by rewrite IH.
Qed.

(** C7: the tag parser is the rule of the data model: it splits the input
    at the commas, strips every piece and keeps the non-empty ones, in
    their order and with their repetitions; an absent input counts as the
    empty string, and "a, b ,,c" gives a, b, c. *)
Theorem parse_tags_spec (tags : option string) :
  parse_tags tags = spec_parse_tags (default "" tags)
  ∧ Forall (λ t, t ≠ "" ∧ Py.strip t = t) (parse_tags tags)
  ∧ parse_tags (Some "a, b ,,c") = ["a"; "b"; "c"]
  ∧ parse_tags (Some "x,y , x") = ["x"; "y"; "x"].
Proof.
  assert (Hor : Py.or_else tags "" = default "" tags).
  { destruct tags as [[|c s]|]; done. }
  assert (Heq : parse_tags tags = spec_parse_tags (default "" tags)).
  { unfold parse_tags, spec_parse_tags. by rewrite Hor, strip_nonempty_filter. }
  split; [done|]. split; [|done].
  rewrite Heq. unfold spec_parse_tags.
  apply Forall_forall. intros t Ht.
  apply list_elem_of_filter in Ht as [Hne Hin].
  split; [done|].
  apply list_elem_of_In, in_map_iff in Hin as (p & <- & _).
  apply strip_idemp.
Qed.

(** ** The view counter *)

Lemma apply_view_update d :
  Mongo.apply_update view_update d =
  if countable_views d then Some (viewed d) else None.
Proof.
  unfold Mongo.apply_update, view_update, countable_views, viewed, stored_views,
    doc_get_default. simpl.
  destruct (fields d !! "views") as [[]|] eqn:E; simpl; try done.
Qed.

Lemma stored_views_viewed d : stored_views (viewed d) = stored_views d + 1.
Proof.
  unfold stored_views at 1, doc_get_default, viewed. simpl.
  rewrite lookup_insert_ne by done. by rewrite lookup_insert_eq.
Qed.

Lemma find_one_cons d c oid :
  Mongo.find_one (d :: c) oid =
  if decide (_id d = oid) then Some d else Mongo.find_one c oid.
Proof.
  unfold Mongo.find_one. simpl. case_decide.
  - by rewrite bool_decide_eq_true_2.
  - by rewrite bool_decide_eq_false_2.
Qed.

Lemma find_one_id c oid d : Mongo.find_one c oid = Some d → _id d = oid.
Proof.
  induction c as [|x c IH]; [done|]. rewrite find_one_cons.
  case_decide; [by intros [= <-]|done].
Qed.

(** No document with the identifier: nothing is returned, nothing
    changes. *)
Lemma find_one_and_update_None c oid u :
  Mongo.find_one c oid = None →
  Mongo.find_one_and_update c oid u = (Return None, c).
Proof.
  induction c as [|x c IH]; [done|]. rewrite find_one_cons. simpl.
  case_decide; [done|]. intros H0. by rewrite IH.
Qed.

(** A document with the identifier and an applicable update: the
    document is replaced in place by its updated version, which is
    returned; every other document stays. *)
Lemma find_one_and_update_Some c oid u d d' :
  Mongo.find_one c oid = Some d →
  Mongo.apply_update u d = Some d' →
  ∃ pre post,
    c = pre ++ d :: post
    ∧ Forall (λ x, _id x ≠ oid) pre
    ∧ Mongo.find_one_and_update c oid u = (Return (Some d'), pre ++ d' :: post).
Proof.
  induction c as [|x c IH]; [done|]. rewrite find_one_cons. simpl.
  case_decide as Hx.
  - intros [= ->] Hu. rewrite Hu. by exists [], c.
  - intros Hf Hu. destruct (IH Hf Hu) as (pre & post & -> & Hpre & ->).
    exists (x :: pre), post. split; [done|]. split; [by constructor|done].
Qed.

Lemma find_one_and_update_fails c oid u d :
  Mongo.find_one c oid = Some d →
  Mongo.apply_update u d = None →
  Mongo.find_one_and_update c oid u = (Raise WriteError, c).
Proof.
  induction c as [|x c IH]; [done|]. rewrite find_one_cons. simpl.
  case_decide as Hx.
  - intros [= ->] Hu. by rewrite Hu.
  - intros Hf Hu. by rewrite IH.
Qed.

Lemma find_one_app_skip pre rest oid :
  Forall (λ x, _id x ≠ oid) pre →
  Mongo.find_one (pre ++ rest) oid = Mongo.find_one rest oid.
Proof.
  induction 1 as [|x pre Hx _ IH]; [done|].
  change ((x :: pre) ++ rest) with (x :: (pre ++ rest)).
  rewrite find_one_cons. by rewrite decide_False.
Qed.

Lemma world_eta w : mkWorld (blobs w) (outside w) (video w) = w.
Proof. by destruct w. Qed.

Lemma get_video_store_missing w oid :
  Mongo.find_one (video w) oid = None →
  get_video_store w oid = (Raise NotFound_video, w).
Proof.
  intros H. unfold get_video_store.
  rewrite (find_one_and_update_None _ _ _ H). by rewrite world_eta.
Qed.

Lemma get_video_store_found w oid d :
  Mongo.find_one (video w) oid = Some d →
  countable_views d = true →
  ∃ pre post,
    video w = pre ++ d :: post
    ∧ Forall (λ x, _id x ≠ oid) pre
    ∧ get_video_store w oid =
        (Return (project (viewed d)),
         mkWorld (blobs w) (outside w) (pre ++ viewed d :: post)).
Proof.
  intros Hf Hc.
  assert (Hu : Mongo.apply_update view_update d = Some (viewed d)).
  { by rewrite apply_view_update, Hc. }
  destruct (find_one_and_update_Some _ _ _ _ _ Hf Hu) as (pre & post & Hv & Hpre & Hfu).
  exists pre, post. split; [done|]. split; [done|].
  unfold get_video_store. by rewrite Hfu.
Qed.

Lemma get_video_store_uncountable w oid d :
  Mongo.find_one (video w) oid = Some d →
  countable_views d = false →
  get_video_store w oid = (Raise WriteError, w).
Proof.
  intros Hf Hc.
  assert (Hu : Mongo.apply_update view_update d = None).
  { by rewrite apply_view_update, Hc. }
  unfold get_video_store.
  rewrite (find_one_and_update_fails _ _ _ _ Hf Hu). by rewrite world_eta.
Qed.

(** A call answers with a record only when the record is there and its
    counter can be incremented. *)
Lemma get_video_store_Return w oid out w' :
  get_video_store w oid = (Return out, w') →
  ∃ d, Mongo.find_one (video w) oid = Some d ∧ countable_views d = true.
Proof.
  intros H. destruct (Mongo.find_one (video w) oid) as [d|] eqn:Hf.
  - exists d. split; [done|]. destruct (countable_views d) eqn:Hc; [done|].
    by rewrite (get_video_store_uncountable _ _ _ Hf Hc) in H.
  - by rewrite (get_video_store_missing _ _ Hf) in H.
Qed.

Lemma find_one_updated pre post d' oid :
  Forall (λ x, _id x ≠ oid) pre → _id d' = oid →
  Mongo.find_one (pre ++ d' :: post) oid = Some d'.
Proof.
  intros Hpre Hid. rewrite find_one_app_skip by done.
  rewrite find_one_cons. by rewrite decide_True.
Qed.

(** C3: a string that bson does not accept as an identifier is answered
    with [InvalidIdentifier], status 400 and not a [NotFound], whatever the
    stores hold and without a change to them; a string that is an
    identifier of no stored record is answered with [NotFound], again
    without a change. *)
Theorem get_video_invalid_or_missing
    (ObjectId_of_str : string → option ObjectId) (w : World) (video_id : string) :
  (ObjectId_of_str video_id = None →
     get_video ObjectId_of_str w video_id = (Raise InvalidIdentifier, w)
     ∧ is_NotFound (get_video ObjectId_of_str w video_id).1 = false)
  ∧ (∀ oid, ObjectId_of_str video_id = Some oid →
     Mongo.find_one (video w) oid = None →
     get_video ObjectId_of_str w video_id = (Raise NotFound_video, w)
     ∧ is_NotFound (get_video ObjectId_of_str w video_id).1 = true).
Proof.
  unfold get_video. split.
  - intros ->. done.
  - intros oid -> Hf. by rewrite (get_video_store_missing _ _ Hf).
Qed.

Lemma get_video_invalid_or_missing_witness :
  get_video ObjectId_of_hex demo_world "not-an-id" = (Raise InvalidIdentifier, demo_world)
  ∧ get_video ObjectId_of_hex demo_world "0000000000000000000000ff"
    = (Raise NotFound_video, demo_world).
Proof.
  split.
  - apply (proj1 (get_video_invalid_or_missing ObjectId_of_hex demo_world "not-an-id")).
    reflexivity.
  - apply (proj2 (get_video_invalid_or_missing ObjectId_of_hex demo_world
                    "0000000000000000000000ff") 255%N); reflexivity.
Defined.

(** C4: for an identifier of a stored record whose counter is a number (or
    absent, which reads as 0), the call succeeds, the stored counter is one
    more than before, and the answer is the projection of the record as it
    is after the increment: its [views] is the prior value plus one. *)
Theorem get_video_increments
    (ObjectId_of_str : string → option ObjectId) (w : World)
    (video_id : string) (oid : ObjectId) (d : document) :
  ObjectId_of_str video_id = Some oid →
  Mongo.find_one (video w) oid = Some d →
  countable_views d = true →
  ∃ out w' d',
    get_video ObjectId_of_str w video_id = (Return out, w')
    ∧ Mongo.find_one (video w') oid = Some d'
    ∧ stored_views d' = stored_views d + 1
    ∧ out = project d'
    ∧ out_views out = VInt (stored_views d + 1).
Proof.
  intros Hp Hf Hc. unfold get_video. rewrite Hp.
  destruct (get_video_store_found _ _ _ Hf Hc) as (pre & post & Hv & Hpre & ->).
  eexists _, _, (viewed d). split; [done|]. simpl.
  split.
  { apply find_one_updated; [done|]. simpl. by eapply find_one_id. }
  split; [apply stored_views_viewed|]. split; [done|].
  unfold project, doc_get_default, viewed. simpl.
  rewrite lookup_insert_ne by done. by rewrite lookup_insert_eq.
Qed.

Lemma get_video_increments_witness :
  ∃ out w' d',
    get_video ObjectId_of_hex demo_world demo_id = (Return out, w')
    ∧ Mongo.find_one (video w') 4096%N = Some d'
    ∧ stored_views d' = stored_views demo_doc + 1
    ∧ out = project d'
    ∧ out_views out = VInt (stored_views demo_doc + 1).
Proof.
  apply (get_video_increments ObjectId_of_hex demo_world demo_id 4096%N demo_doc);
    reflexivity.
Defined.

(** C9: a successful call changes one document of the collection and
    nothing else.  In that document the identifier and every field other
    than [views] and [updated_at] keep their values, [updated_at] is set to
    [None], and the answer carries the prior title, description, filename,
    content type, size, tags and creation time.  The stored files are not
    touched. *)
Theorem get_video_frame
    (ObjectId_of_str : string → option ObjectId) (w w' : World)
    (video_id : string) (out : VideoOut) :
  get_video ObjectId_of_str w video_id = (Return out, w') →
  ∃ oid d d' pre post,
    ObjectId_of_str video_id = Some oid
    ∧ video w = pre ++ d :: post
    ∧ Forall (λ x, _id x ≠ oid) pre
    ∧ _id d = oid
    ∧ video w' = pre ++ d' :: post
    ∧ _id d' = _id d
    ∧ (∀ k, k ≠ "views" → k ≠ "updated_at" → fields d' !! k = fields d !! k)
    ∧ fields d' !! "updated_at" = Some VNone
    ∧ fields d' !! "views" = Some (VInt (stored_views d + 1))
    ∧ out = mkVideoOut (oid_str (_id d))
              (doc_get d "title") (doc_get d "description") (doc_get d "filename")
              (doc_get d "content_type") (doc_get d "size")
              (VInt (stored_views d + 1)) (doc_get_default d "tags" (VList []))
              (doc_get d "created_at")
    ∧ blobs w' = blobs w
    ∧ outside w' = outside w.
Proof.
  unfold get_video. destruct (ObjectId_of_str video_id) as [oid|] eqn:Hp; [|done].
  intros H. destruct (get_video_store_Return _ _ _ _ H) as (d & Hf & Hc).
  destruct (get_video_store_found _ _ _ Hf Hc) as (pre & post & Hv & Hpre & He).
  rewrite He in H. injection H as <- <-.
  exists oid, d, (viewed d), pre, post. simpl.
  repeat split; try done.
  - by eapply find_one_id.
  - intros k Hk1 Hk2. by rewrite !lookup_insert_ne.
  - by rewrite lookup_insert_eq.
  - rewrite lookup_insert_ne by done. by rewrite lookup_insert_eq.
  - unfold project, doc_get, doc_get_default, viewed. simpl.
    rewrite !(lookup_insert_ne _ "updated_at") by done.
    rewrite lookup_insert_eq.
    by rewrite !(lookup_insert_ne _ "views") by done.
Qed.

Lemma get_video_frame_witness :
  ∃ oid d d' pre post,
    ObjectId_of_hex demo_id = Some oid
    ∧ video demo_world = pre ++ d :: post
    ∧ Forall (λ x, _id x ≠ oid) pre
    ∧ _id d = oid
    ∧ video (get_video ObjectId_of_hex demo_world demo_id).2 = pre ++ d' :: post
    ∧ _id d' = _id d
    ∧ (∀ k, k ≠ "views" → k ≠ "updated_at" → fields d' !! k = fields d !! k)
    ∧ fields d' !! "updated_at" = Some VNone
    ∧ fields d' !! "views" = Some (VInt (stored_views d + 1))
    ∧ project (viewed demo_doc)
      = mkVideoOut (oid_str (_id d))
              (doc_get d "title") (doc_get d "description") (doc_get d "filename")
              (doc_get d "content_type") (doc_get d "size")
              (VInt (stored_views d + 1)) (doc_get_default d "tags" (VList []))
              (doc_get d "created_at")
    ∧ blobs (get_video ObjectId_of_hex demo_world demo_id).2 = blobs demo_world
    ∧ outside (get_video ObjectId_of_hex demo_world demo_id).2 = outside demo_world.
Proof.
  apply (get_video_frame ObjectId_of_hex demo_world
           (get_video ObjectId_of_hex demo_world demo_id).2 demo_id
           (project (viewed demo_doc))).
  reflexivity.
Defined.

(** ** Names and paths of the stored files *)

Lemma hex_digit_is_hex d : is_hex_lower (hex_digit d) = true.
Proof.
  destruct d as [|p]; [done|].
  do 5 (try (destruct p as [p|p|]; try done)).
Qed.

Lemma hex_of_is_hex k x acc :
  string_forall is_hex_lower acc = true →
  string_forall is_hex_lower (hex_of k x acc) = true.
Proof.
  revert x acc. induction k as [|k IH]; intros x acc Hacc; [done|].
  simpl. apply IH. simpl. by rewrite hex_digit_is_hex.
Qed.

Lemma hex_of_length k x acc :
  String.length (hex_of k x acc) = (k + String.length acc)%nat.
Proof.
  revert x acc. induction k as [|k IH]; intros x acc; [done|].
  simpl. rewrite IH. simpl. lia.
Qed.

(** [str(oid)] is 24 characters long, all of them hexadecimal digits. *)
Lemma oid_str_length o : String.length (oid_str o) = 24%nat.
Proof. unfold oid_str. by rewrite hex_of_length. Qed.

Lemma oid_str_is_hex o : string_forall is_hex_lower (oid_str o) = true.
Proof. by apply hex_of_is_hex. Qed.

Lemma has_char_app c a b :
  Py.has_char c (a +:+ b) = Py.has_char c a || Py.has_char c b.
Proof.
  induction a as [|d a IH]; [done|].
  change (String d a +:+ b) with (String d (a +:+ b)). simpl.
  rewrite IH. by rewrite orb_assoc.
Qed.

Lemma length_app_str a b :
  String.length (a +:+ b) = (String.length a + String.length b)%nat.
Proof.
  induction a as [|d a IH]; [done|].
  change (String d a +:+ b) with (String d (a +:+ b)). simpl. by rewrite IH.
Qed.

Lemma hex_no_sep s :
  string_forall is_hex_lower s = true → Py.has_char "/" s = false.
Proof.
  induction s as [|c s IH]; [done|]. simpl.
  intros [Hc Hs]%andb_prop. rewrite IH by done.
  rewrite bool_decide_eq_false_2; [done|]. by intros ->.
Qed.

Lemma rfind_lower c s : -1 <= os_path.rfind c s.
Proof.
  induction s as [|d s IH]; simpl; [lia|].
  destruct (0 <=? os_path.rfind c s) eqn:E; [lia|]. case_decide; lia.
Qed.

(** Past its last occurrence the character does not occur. *)
Lemma rfind_drop c s n :
  os_path.rfind c s < Z.of_nat n → Py.has_char c (os_path.drop n s) = false.
Proof.
  revert n. induction s as [|d s IH]; intros n; [by destruct n|].
  simpl. destruct (0 <=? os_path.rfind c s) eqn:E.
  - apply Z.leb_le in E. destruct n as [|n]; [lia|]. intros H. apply IH. lia.
  - apply Z.leb_gt in E. destruct n as [|n].
    + case_decide; [lia|]. intros _. simpl.
      rewrite bool_decide_eq_false_2 by done.
      apply (IH 0%nat). lia.
    + intros _. apply IH. lia.
Qed.

(** The extension [os.path.splitext] returns holds no separator. *)
Lemma splitext_ext_no_sep p : Py.has_char "/" (os_path.splitext p).2 = false.
Proof.
  unfold os_path.splitext.
  destruct (os_path.rfind "/" p <? os_path.rfind "." p) eqn:E; [|done].
  apply Z.ltb_lt in E.
  destruct (os_path.has_non_dot _); [|done]. simpl.
  apply rfind_drop. pose proof (rfind_lower "/" p). lia.
Qed.

Lemma safe_name_no_sep e file : Py.has_char "/" (safe_name e file) = false.
Proof.
  unfold safe_name. rewrite has_char_app, splitext_ext_no_sep.
  by rewrite (hex_no_sep _ (oid_str_is_hex _)).
Qed.

Lemma is_dot_length name : is_dot name = true → (String.length name <= 2)%nat.
Proof.
  unfold is_dot. intros H.
  repeat (apply orb_prop in H as [H|H]); apply bool_decide_eq_true in H; subst; simpl; lia.
Qed.

Lemma safe_name_not_dot e file : is_dot (safe_name e file) = false.
Proof.
  destruct (is_dot (safe_name e file)) eqn:E; [|done].
  apply is_dot_length in E. unfold safe_name in E.
  rewrite length_app_str, oid_str_length in E. lia.
Qed.

(** A name without separator, joined to the storage directory, names the
    entry of that name. *)
Lemma storage_entry_join name :
  Py.has_char "/" name = false →
  storage_entry (os_path.join STORAGE_DIR name) = Some name.
Proof.
  intros H. unfold os_path.join.
  assert (Hp : Py.startswith name "/" = false).
  { destruct name as [|c r]; [done|]. simpl in *.
    apply orb_false_elim in H as [-> _]. done. }
  rewrite Hp. unfold storage_entry.
  change (strip_prefix _ _) with (Some name). simpl. by rewrite H.
Qed.

(** The file of an upload is an entry of the storage directory, and never
    one of the directory names. *)
Lemma destination_entry e file :
  storage_entry (os_path.join STORAGE_DIR (safe_name e file)) = Some (safe_name e file)
  ∧ is_dot (safe_name e file) = false.
Proof.
  split; [apply storage_entry_join, safe_name_no_sep|apply safe_name_not_dot].
Qed.

(** ** The ingestion *)

Lemma write_file_destination o w e file content :
  write_file o w (os_path.join STORAGE_DIR (safe_name e file)) content =
  match o with
  | Written =>
      (Return tt,
       mkWorld (<[safe_name e file := content]> (blobs w)) (outside w) (video w))
  | OpenFailed => (Raise OSError, w)
  | WriteFailed k =>
      (Raise OSError,
       mkWorld (<[safe_name e file := List.firstn k content]> (blobs w))
         (outside w) (video w))
  end.
Proof.
  unfold write_file. destruct (destination_entry e file) as [-> ->]. done.
Qed.

(** The constraints of the model never reject what the handler builds: a
    length is not negative. *)
Lemma Video_new_ok title description filename content_type (content : list Byte.byte) tags :
  Video.new title description filename content_type (Z.of_nat (length content)) tags
  = Return (Video.mk title description filename content_type
              (Z.of_nat (length content)) 0 (Some tags)).
Proof.
  unfold Video.new, Video.validate. simpl.
  rewrite (proj2 (Z.leb_le 0 _)) by lia. done.
Qed.

(** The handler, with the branches that cannot be taken removed. *)
Lemma upload_video_cases e w file title description tags :
  upload_video e w file title description tags =
  match UploadFile.content_type file with
  | None => (Raise InvalidContentType, w)
  | Some ct =>
      if Py.startswith ct "video/" then
        match disk e with
        | Written =>
            let w1 := mkWorld (<[safe_name e file := UploadFile.file file]> (blobs w))
                        (outside w) (video w) in
            match insert e with
            | None => (Raise StorageWriteError, w1)
            | Some (oid, now) =>
                match Mongo.find_one (video w) oid with
                | Some _ => (Raise StorageWriteError, w1)
                | None =>
                    (Return (oid_str oid),
                     mkWorld (blobs w1) (outside w)
                       (video w ++ [uploaded_document e file title description tags ct oid now]))
                end
            end
        | OpenFailed => (Raise OSError, w)
        | WriteFailed k =>
            (Raise OSError,
             mkWorld (<[safe_name e file := List.firstn k (UploadFile.file file)]> (blobs w))
               (outside w) (video w))
        end
      else (Raise InvalidContentType, w)
  end.
Proof.
  unfold upload_video.
  destruct (UploadFile.content_type file) as [ct|]; [|done].
  destruct (Py.startswith ct "video/"); cbn [negb]; [|reflexivity].
  cbv zeta. rewrite write_file_destination.
  destruct (disk e); try reflexivity.
  unfold UploadFile.read. rewrite Video_new_ok.
  unfold create_document. cbn [video blobs outside].
  destruct (insert e) as [[oid now]|]; [|reflexivity].
  destruct (Mongo.find_one (video w) oid); reflexivity.
Qed.

(** What an accepted upload has done. *)
Lemma upload_video_Return e w file title description tags id w' :
  upload_video e w file title description tags = (Return id, w') →
  ∃ ct oid now,
    UploadFile.content_type file = Some ct
    ∧ Py.startswith ct "video/" = true
    ∧ disk e = Written
    ∧ insert e = Some (oid, now)
    ∧ Mongo.find_one (video w) oid = None
    ∧ id = oid_str oid
    ∧ w' = mkWorld (<[safe_name e file := UploadFile.file file]> (blobs w)) (outside w)
             (video w ++ [uploaded_document e file title description tags ct oid now]).
Proof.
  rewrite upload_video_cases.
  destruct (UploadFile.content_type file) as [ct|] eqn:Hct; [|discriminate].
  destruct (Py.startswith ct "video/") eqn:Hv; [|discriminate].
  destruct (disk e) eqn:Hd; try discriminate.
  destruct (insert e) as [[oid now]|] eqn:Hi; [|discriminate].
  destruct (Mongo.find_one (video w) oid) eqn:Hf; [discriminate|].
  cbv zeta. cbn [blobs]. intros [= <- <-]. exists ct, oid, now. auto 10.
Qed.

(** An upload is accepted when its type is a video type, the disk takes
    the file and the store the record. *)
Lemma upload_video_accepted e w file title description tags ct oid now :
  UploadFile.content_type file = Some ct →
  Py.startswith ct "video/" = true →
  disk e = Written →
  insert e = Some (oid, now) →
  Mongo.find_one (video w) oid = None →
  (upload_video e w file title description tags).1 = Return (oid_str oid).
Proof.
  intros Hct Hv Hd Hi Hf. rewrite upload_video_cases, Hct, Hv, Hd, Hi. simpl.
  by rewrite Hf.
Qed.

(** The declared length plays no part. *)
Lemma upload_video_declared_size e w fn ct declared declared' content title description tags :
  upload_video e w (UploadFile.mk fn ct declared content) title description tags
  = upload_video e w (UploadFile.mk fn ct declared' content) title description tags.
Proof. reflexivity. Qed.

(** The fields of the inserted document. *)
Lemma uploaded_document_fields e file title description tags ct oid now :
  let d := uploaded_document e file title description tags ct oid now in
  _id d = oid
  ∧ fields d !! "title" = Some (VStr (default_title title file))
  ∧ fields d !! "filename" = Some (VStr (safe_name e file))
  ∧ fields d !! "content_type" = Some (VStr ct)
  ∧ fields d !! "size" = Some (VInt (Z.of_nat (length (UploadFile.file file))))
  ∧ fields d !! "views" = Some (VInt 0)
  ∧ fields d !! "tags" = Some (VList (parse_tags tags))
  ∧ fields d !! "created_at" = Some (VDate now).
Proof.
  unfold uploaded_document, Video.model_dump.
  cbn [_id fields Video.title Video.description Video.filename Video.content_type
       Video.size Video.views Video.tags Video.opt_list].
  repeat split;
    repeat first [rewrite lookup_insert_eq; reflexivity | rewrite lookup_insert_ne by done].
Qed.

(** C1: an accepted upload appends one record; the file named by its
    [filename] holds exactly the uploaded bytes and its [size] is their
    number, whatever length the client declared. *)
Theorem upload_video_size e w file title description tags id w' :
  upload_video e w file title description tags = (Return id, w') →
  ∃ d key,
    video w' = video w ++ [d]
    ∧ fields d !! "filename" = Some (VStr key)
    ∧ blobs w' !! key = Some (UploadFile.file file)
    ∧ send w' (mkFileResponse (os_path.join STORAGE_DIR key) "application/octet-stream")
      = Return (UploadFile.file file)
    ∧ fields d !! "size" = Some (VInt (Z.of_nat (length (UploadFile.file file))))
    ∧ ∀ declared,
        upload_video e w
          (UploadFile.mk (UploadFile.filename file) (UploadFile.content_type file)
             declared (UploadFile.file file)) title description tags
        = (Return id, w').
Proof.
  intros H.
  destruct (upload_video_Return _ _ _ _ _ _ _ _ H)
    as (ct & oid & now & Hct & Hv & Hd & Hi & Hf & -> & ->).
  exists (uploaded_document e file title description tags ct oid now), (safe_name e file).
  cbn [video blobs outside].
  split; [reflexivity|].
  split; [apply uploaded_document_fields|].
  split; [by rewrite lookup_insert_eq|].
  split.
  { unfold send, lookup_path. cbn [path blobs].
    destruct (destination_entry e file) as [-> ->].
    by rewrite lookup_insert_eq. }
  split; [apply uploaded_document_fields|].
  intros declared. rewrite <- H. by destruct file.
Qed.

Lemma upload_video_size_witness :
  ∃ d key,
    video demo_world = video empty_world ++ [d]
    ∧ fields d !! "filename" = Some (VStr key)
    ∧ blobs demo_world !! key = Some (UploadFile.file demo_file)
    ∧ send demo_world (mkFileResponse (os_path.join STORAGE_DIR key) "application/octet-stream")
      = Return (UploadFile.file demo_file)
    ∧ fields d !! "size" = Some (VInt (Z.of_nat (length (UploadFile.file demo_file))))
    ∧ ∀ declared,
        upload_video demo_env empty_world
          (UploadFile.mk (UploadFile.filename demo_file) (UploadFile.content_type demo_file)
             declared (UploadFile.file demo_file)) None (Some "d") (Some "Cat, x")
        = (Return demo_id, demo_world).
Proof.
  apply (upload_video_size demo_env empty_world demo_file None (Some "d") (Some "Cat, x")
           demo_id demo_world).
  reflexivity.
Defined.

(** [startswith] is the prefix test. *)
Lemma startswith_spec s p : Py.startswith s p = true ↔ ∃ r, s = p +:+ r.
Proof.
  revert s. induction p as [|a p IH]; intros s.
  - split; [intros _; exists s; reflexivity|by destruct s].
  - destruct s as [|b s].
    + split; [discriminate|]. intros [r Hr]. discriminate Hr.
    + cbn [Py.startswith].
      rewrite andb_true_iff, bool_decide_eq_true, IH. split.
      * intros [-> [r ->]]. exists r. reflexivity.
      * intros [r Hr]. change (String a p +:+ r) with (String a (p +:+ r)) in Hr.
        injection Hr as -> ->. eauto.
Qed.

(** C2: an upload whose MIME type is absent or does not begin with
    [video/] is refused with [InvalidContentType] and leaves both stores as
    they were: no file written, no record inserted.  An upload whose type
    begins with [video/] is never answered with that error. *)
Theorem upload_video_content_type e w file title description tags :
  (is_video file = false →
     upload_video e w file title description tags = (Raise InvalidContentType, w))
  ∧ (is_video file = true →
     (upload_video e w file title description tags).1 ≠ Raise InvalidContentType).
Proof.
  rewrite upload_video_cases. unfold is_video.
  destruct (UploadFile.content_type file) as [ct|]; [|by split].
  split; intros ->; [reflexivity|].
  destruct (disk e); [|discriminate..].
  destruct (insert e) as [[oid now]|]; [|discriminate].
  destruct (Mongo.find_one (video w) oid); discriminate.
Qed.

Lemma upload_video_content_type_witness :
  upload_video demo_env demo_world demo_image None None None
    = (Raise InvalidContentType, demo_world)
  ∧ (upload_video demo_env empty_world demo_file None (Some "d") (Some "Cat, x")).1
    ≠ Raise InvalidContentType.
Proof.
  split.
  - apply (proj1 (upload_video_content_type demo_env demo_world demo_image None None None)).
    reflexivity.
  - apply (proj2 (upload_video_content_type demo_env empty_world demo_file None
                    (Some "d") (Some "Cat, x"))).
    reflexivity.
Defined.

(** C10: when the caller gives no title, or an empty one, the inserted
    record takes the client's file name as its title, and "Untitled" when
    that name is absent or empty too. *)
Theorem upload_video_default_title e w file title description tags id w' :
  upload_video e w file title description tags = (Return id, w') →
  title = None ∨ title = Some "" →
  ∃ d,
    video w' = video w ++ [d]
    ∧ fields d !! "title" =
        Some (VStr match UploadFile.filename file with
                   | Some (String c r) => String c r
                   | Some "" | None => "Untitled"
                   end).
Proof.
  intros H Ht.
  destruct (upload_video_Return _ _ _ _ _ _ _ _ H)
    as (ct & oid & now & _ & _ & _ & _ & _ & _ & ->).
  exists (uploaded_document e file title description tags ct oid now).
  split; [reflexivity|].
  destruct (uploaded_document_fields e file title description tags ct oid now)
    as (_ & -> & _).
  do 2 f_equal. unfold default_title.
  destruct Ht as [-> | ->]; by destruct (UploadFile.filename file) as [[|c r]|].
Qed.

Lemma upload_video_default_title_witness :
  ∃ d,
    video demo_world = video empty_world ++ [d]
    ∧ fields d !! "title" = Some (VStr "cat.mp4").
Proof.
  apply (upload_video_default_title demo_env empty_world demo_file None (Some "d")
           (Some "Cat, x") demo_id demo_world).
  - reflexivity.
  - left. reflexivity.
Defined.

(** ** Streaming *)

(** For a name of one segment the handler looks at the entry of that name
    in the storage directory. *)
Lemma stream_file_segment w filename :
  Py.has_char "/" filename = false →
  stream_file w filename =
  if is_dot filename || bool_decide (is_Some (blobs w !! filename))
  then Return (mkFileResponse (os_path.join STORAGE_DIR filename) "application/octet-stream")
  else Raise NotFound_file.
Proof.
  intros H. unfold stream_file, os_path_exists, lookup_path.
  rewrite (storage_entry_join _ H).
  destruct (is_dot filename); [done|].
  destruct (blobs w !! filename) eqn:E; reflexivity.
Qed.

(** A segment that is neither a stored file nor a directory name is
    answered with [NotFound]. *)
Lemma stream_file_missing w filename :
  path_segment filename = true →
  is_dot filename = false →
  blobs w !! filename = None →
  stream_file w filename = Raise NotFound_file.
Proof.
  intros [_ Hs%negb_true_iff]%andb_prop Hd Hb.
  rewrite stream_file_segment, Hd, Hb by done.
  rewrite bool_decide_eq_false_2; [done|]. by intros [? ?].
Qed.

(** A stored file is answered with its bytes. *)
Lemma stream_file_stored w filename content :
  Py.has_char "/" filename = false →
  is_dot filename = false →
  blobs w !! filename = Some content →
  ∃ r, stream_file w filename = Return r ∧ send w r = Return content.
Proof.
  intros Hs Hd Hb. rewrite stream_file_segment, Hd, Hb by done.
  rewrite bool_decide_eq_true_2 by done. eexists. split; [done|].
  unfold send, lookup_path. cbn [path].
  by rewrite (storage_entry_join _ Hs), Hd, Hb.
Qed.

(** After an accepted upload, streaming the name it stored gives back the
    uploaded bytes. *)
Lemma stream_file_uploaded e w file title description tags id w' :
  upload_video e w file title description tags = (Return id, w') →
  ∃ r, stream_file w' (safe_name e file) = Return r
       ∧ send w' r = Return (UploadFile.file file).
Proof.
  intros H.
  destruct (upload_video_Return _ _ _ _ _ _ _ _ H)
    as (ct & oid & now & _ & _ & _ & _ & _ & _ & ->).
  apply stream_file_stored.
  - apply safe_name_no_sep.
  - apply safe_name_not_dot.
  - cbn [blobs]. by rewrite lookup_insert_eq.
Qed.

(** A later upload under another name and every view leave the stored
    file as it is. *)
Lemma upload_video_keeps_blob e w file title description tags r w' key content :
  upload_video e w file title description tags = (r, w') →
  key ≠ safe_name e file →
  blobs w !! key = Some content →
  blobs w' !! key = Some content.
Proof.
  rewrite upload_video_cases. intros H Hk Hb.
  destruct (UploadFile.content_type file) as [ct|]; [|by injection H as _ <-].
  destruct (Py.startswith ct "video/"); [|by injection H as _ <-].
  destruct (disk e).
  - destruct (insert e) as [[oid now]|];
      [destruct (Mongo.find_one (video w) oid)|];
      injection H as _ <-; cbn [blobs]; by rewrite lookup_insert_ne.
  - by injection H as _ <-.
  - injection H as _ <-. cbn [blobs]. by rewrite lookup_insert_ne.
Qed.

Lemma get_video_keeps_blobs parse w video_id r w' :
  get_video parse w video_id = (r, w') → blobs w' = blobs w.
Proof.
  unfold get_video, get_video_store.
  destruct (parse video_id); [|by intros [= _ <-]].
  destruct (Mongo.find_one_and_update _ _ _) as [[[doc|]|x] c]; by intros [= _ <-].
Qed.

(** C8, at the name [.]: no upload stores a file under it, the directory
    of line 23 exists under it, so the existence test passes: the handler
    does not answer [NotFound] but hands out a response for the directory
    itself, which cannot be sent. *)
Theorem stream_file_directory_name (w : World) :
  path_segment "." = true
  ∧ (∀ e file, safe_name e file ≠ ".")
  ∧ stream_file w "." = Return (mkFileResponse "uploads/." "application/octet-stream")
  ∧ is_NotFound (stream_file w ".") = false
  ∧ send w (mkFileResponse "uploads/." "application/octet-stream") = Raise RuntimeError.
Proof.
  split; [reflexivity|]. split; [|by repeat split].
  intros e file Heq. pose proof (safe_name_not_dot e file) as H.
  by rewrite Heq in H.
Qed.

(** ** Searching *)

Lemma app_str_cons c a b : String c a +:+ b = String c (a +:+ b).
Proof. reflexivity. Qed.

Lemma ci_prefix_spec q s :
  ci_prefix q s = true ↔ ∃ post, lower_str s = lower_str q +:+ post.
Proof.
  revert s. induction q as [|a q IH]; intros s.
  - split; [intros _; by exists (lower_str s)|by destruct s].
  - destruct s as [|b s]; cbn [ci_prefix lower_str].
    + split; [discriminate|]. intros [post H]. discriminate H.
    + rewrite andb_true_iff, bool_decide_eq_true, IH. split.
      * intros [-> [post ->]]. by exists post.
      * intros [post H]. rewrite app_str_cons in H. injection H as -> ->. eauto.
Qed.

(** [ci_contains] decides the substring relation of the specification. *)
Lemma ci_contains_spec q s : ci_contains q s = true ↔ ci_substring q s.
Proof.
  unfold ci_substring. induction s as [|b s IH]; cbn [ci_contains].
  - rewrite orb_false_r, ci_prefix_spec. split.
    + intros [post H]. by exists "", post.
    + intros (pre & post & H). destruct pre; [by exists post|discriminate H].
  - rewrite orb_true_iff, ci_prefix_spec, IH. cbn [lower_str]. split.
    + intros [[post H]|(pre & post & H)].
      * by exists "", post.
      * exists (String (Mongo.lower b) pre), post. by rewrite app_str_cons, <- H.
    + intros (pre & post & H). destruct pre as [|x pre].
      * left. by exists post.
      * right. rewrite app_str_cons in H. injection H as _ H. by exists pre, post.
Qed.

(** A pattern of literal characters compiles to these characters. *)
Lemma compile_literal q :
  string_forall literal_char q = true →
  Mongo.compile q = Some (Mongo.Lit <$> list_ascii_of_string q).
Proof.
  induction q as [|c q IH]; [done|]. cbn [string_forall Mongo.compile].
  intros [Hc Hq]%andb_prop. rewrite (IH Hq).
  apply andb_prop in Hc as [Hm%negb_true_iff Ha].
  unfold Mongo.compile_char. rewrite Hm, Ha.
  rewrite decide_False; [done|]. by intros ->.
Qed.

Lemma match_here_literal q s :
  Mongo.match_here true (Mongo.Lit <$> list_ascii_of_string q) s = ci_prefix q s.
Proof.
  revert s. induction q as [|a q IH]; intros s; [by destruct s|].
  destruct s as [|b s]; [done|].
  cbn [list_ascii_of_string fmap list_fmap Mongo.match_here ci_prefix Mongo.atom_match].
  by rewrite <- IH.
Qed.

(** For such a pattern the caseless search of the store is the substring
    test. *)
Lemma search_literal q s :
  Mongo.search true (Mongo.Lit <$> list_ascii_of_string q) s = ci_contains q s.
Proof.
  induction s as [|b s IH]; cbn [Mongo.search ci_contains];
    by rewrite match_here_literal, ?IH.
Qed.

Lemma regex_field_literal q d field :
  Mongo.regex_field true (Mongo.Lit <$> list_ascii_of_string q) d field
  = occurs_in q (fields d !! field).
Proof.
  unfold Mongo.regex_field, occurs_in.
  destruct (fields d !! field) as [[| | s | l |]|]; try done.
  - apply search_literal.
  - induction l as [|x l IH]; [done|]. cbn [existsb].
    by rewrite search_literal, IH.
Qed.

(** The rule of the specification holds for the queries in which every
    character stands for itself. *)
Lemma list_videos_literal w q :
  Py.truthy q = true →
  string_forall literal_char q = true →
  list_videos w (Some q) = Some (project <$> List.filter (spec_selected q) (video w)).
Proof.
  intros Ht Hq. unfold list_videos, get_documents, truthy_opt. rewrite Ht.
  cbn [default id Mongo.find Mongo.compile_clauses Mongo.pattern Mongo.options].
  rewrite (compile_literal _ Hq). cbn [Py.has_char].
  rewrite bool_decide_eq_true_2 by done. cbn [orb].
  f_equal. f_equal. apply filter_ext. intros d.
  unfold Mongo.matches_or, spec_selected.
  cbn [existsb]. by rewrite orb_false_r, orb_assoc, !regex_field_literal.
Qed.

(** Without a query, or with the empty one, every record is listed, in
    the order of the collection. *)
Lemma list_videos_all w q :
  truthy_opt q = false → list_videos w q = Some (project <$> video w).
Proof. intros H. unfold list_videos. by rewrite H. Qed.

(** C6, at the query [.]: the store reads the query as a pattern, in which
    the dot stands for any character.  The record titled "Dog", with no
    description and the tag "pets", holds no dot, and is listed all the
    same; the rule of the specification selects the first record only. *)
Theorem list_videos_dot_query :
  (project <$> List.filter (spec_selected ".") (video demo_world2))
    = [project demo_doc]
  ∧ ∃ dog,
      video demo_world2 = [demo_doc; dog]
      ∧ fields dog !! "title" = Some (VStr "Dog")
      ∧ fields dog !! "description" = Some VNone
      ∧ fields dog !! "tags" = Some (VList ["pets"])
      ∧ spec_selected "." dog = false
      ∧ list_videos demo_world2 (Some ".") = Some [project demo_doc; project dog].
Proof.
  split; [reflexivity|]. eexists. repeat split; reflexivity.
Qed.

(** ** Concurrent views *)

Lemma answered_views_insert pool i c c' :
  pool !! i = Some c →
  answer c = None →
  answered_views (<[i := c']> pool) ≡ₚ option_list (answer c') ++ answered_views pool.
Proof.
  revert i. induction pool as [|x pool IH]; intros i Hi Hc; [done|].
  destruct i as [|i]; simpl in Hi.
  - injection Hi as ->. simpl. rewrite Hc.
    destruct (answer c'); reflexivity.
  - simpl.
    destruct (answer x) as [a|].
    + rewrite (IH i Hi Hc). destruct (answer c'); cbn [option_list app]; [|done].
      apply Permutation_swap.
    + by apply IH.
Qed.

Lemma views_inv_initial video_id oid d w n :
  Mongo.find_one (video w) oid = Some d →
  countable_views d = true →
  views_inv video_id oid (stored_views d) (replicate n (Called video_id), w).
Proof.
  intros Hf Hc.
  assert (Ha : answered_views (replicate n (Called video_id)) = []).
  { induction n as [|n IH]; [done|]. apply IH. }
  unfold views_inv. cbn [fst snd]. rewrite Ha. split; [|split].
  - apply Forall_replicate. by left.
  - exists d. cbn [length]. split; [done|]. split; [done|lia].
  - done.
Qed.

(** Every step of every call keeps the invariant. *)
Lemma views_inv_step parse video_id oid v0 st st' :
  parse video_id = Some oid →
  views_inv video_id oid v0 st →
  step parse st st' →
  views_inv video_id oid v0 st'.
Proof.
  intros Hp (Hall & (d & Hf & Hc & Hv) & Hperm) Hstep.
  destruct Hstep as [pool w i vid o Hi Ho | pool w i vid Hi Ho | pool w i o r w' Hi Hr];
    cbn [fst snd] in *.
  - assert (vid = video_id ∧ o = oid) as [-> ->].
    { rewrite Forall_forall in Hall.
      destruct (Hall _ (list_elem_of_lookup_2 _ _ _ Hi)) as [[= ->]|[?|[? ?]]];
        [|done..]. split; [done|congruence]. }
    pose proof (answered_views_insert pool i _ (AtStore oid) Hi eq_refl) as Hins.
    cbn [answer option_list app] in Hins.
    assert (Hlen : length (answered_views (<[i:=AtStore oid]> pool))
                   = length (answered_views pool)) by by rewrite Hins.
    split; [|split]; cbn [fst snd].
    + apply Forall_insert; [done|]. right. by left.
    + exists d. by rewrite Hlen.
    + by rewrite Hlen, Hins.
  - exfalso. rewrite Forall_forall in Hall.
    destruct (Hall _ (list_elem_of_lookup_2 _ _ _ Hi)) as [[= ->]|[?|[? ?]]];
      [congruence|done..].
  - assert (o = oid) as ->.
    { rewrite Forall_forall in Hall.
      by destruct (Hall _ (list_elem_of_lookup_2 _ _ _ Hi)) as [?|[[= ->]|[? ?]]]. }
    destruct (get_video_store_found _ _ _ Hf Hc) as (pre & post & Hvid & Hpre & He).
    rewrite He in Hr. injection Hr as <- <-.
    pose proof (answered_views_insert pool i _ (Done (Return (project (viewed d))))
                  Hi eq_refl) as Hins.
    assert (Hout : out_views (project (viewed d)) = VInt (stored_views d + 1)).
    { unfold project, doc_get_default, viewed. cbn [out_views fields].
      rewrite lookup_insert_ne by done. by rewrite lookup_insert_eq. }
    cbn [answer option_list app] in Hins. rewrite Hout in Hins.
    set (k := length (answered_views pool)) in *.
    assert (Hlen : length (answered_views (<[i:=Done (Return (project (viewed d)))]> pool))
                   = S k) by by rewrite Hins.
    split; [|split]; cbn [fst snd video].
    + apply Forall_insert; [done|]. right. right. by eexists.
    + exists (viewed d). split; [|split].
      * apply find_one_updated; [done|]. change (_id d = oid). by eapply find_one_id.
      * unfold countable_views, viewed. cbn [fields].
        rewrite lookup_insert_ne by done. by rewrite lookup_insert_eq.
      * rewrite stored_views_viewed, Hlen. lia.
    + rewrite Hlen, Hins, seq_S, fmap_app. cbn [fmap list_fmap].
      rewrite <- Hperm, Hv.
      replace (v0 + Z.of_nat (1 + k)) with (v0 + Z.of_nat k + 1) by lia.
      by rewrite (Permutation_app_comm _ [_]).
Qed.

Lemma views_inv_steps parse video_id oid v0 st st' :
  parse video_id = Some oid →
  views_inv video_id oid v0 st →
  rtc (step parse) st st' →
  views_inv video_id oid v0 st'.
Proof.
  intros Hp Hinv Hsteps. induction Hsteps as [|st st1 st2 H1 _ IH]; [done|].
  apply IH. by eapply views_inv_step.
Qed.

Lemma step_length parse st st' : step parse st st' → length st'.1 = length st.1.
Proof. destruct 1; cbn [fst]; apply length_insert. Qed.

Lemma steps_length parse st st' : rtc (step parse) st st' → length st'.1 = length st.1.
Proof.
  induction 1 as [|st st1 st2 H1 _ IH]; [done|]. rewrite IH. by eapply step_length.
Qed.

Lemma answered_views_finished video_id oid pool :
  Forall (λ c, c = Called video_id ∨ c = AtStore oid ∨ ∃ out, c = Done (Return out)) pool →
  Forall (λ c, is_done c = true) pool →
  length (answered_views pool) = length pool.
Proof.
  induction 1 as [|c pool Hc _ IH]; [done|]. intros Hd.
  inversion Hd as [|? ? Hdc Hdp]; subst.
  destruct Hc as [->|[->|[out ->]]]; [done..|].
  cbn [answered_views answer length]. by rewrite IH.
Qed.

(** No state of such a run is stuck: a pool with a call that has not
    answered can take a step. *)
Lemma views_inv_progress parse video_id oid v0 st :
  parse video_id = Some oid →
  views_inv video_id oid v0 st →
  ¬ Forall (λ c, is_done c = true) st.1 →
  ∃ st', step parse st st'.
Proof.
  intros Hp (Hall & _ & _) Hnd. destruct st as [pool w]. cbn [fst] in *.
  apply not_Forall_Exists in Hnd; [|intros c; apply _].
  apply Exists_exists in Hnd as (c & Hin & Hc).
  apply list_elem_of_lookup_1 in Hin as [i Hi].
  rewrite Forall_forall in Hall.
  destruct (Hall c (list_elem_of_lookup_2 _ _ _ Hi)) as [->|[->|[out ->]]].
  - eexists. by eapply step_parse.
  - destruct (get_video_store w oid) as [r w'] eqn:E.
    eexists. by eapply step_store.
  - by destruct Hc.
Qed.

(** Every step moves one call forward, so a run of [n] calls has at most
    [2 * n] steps. *)
Lemma step_stage parse st st' :
  step parse st st' → (stages st.1 < stages st'.1)%nat.
Proof.
  assert (Hins : ∀ pool i c c', pool !! i = Some c → (stage c < stage c')%nat →
            (stages pool < stages (<[i:=c']> pool))%nat).
  { induction pool as [|x pool IH]; intros i c c' Hi Hlt; [done|].
    destruct i as [|i]; simpl in Hi.
    - injection Hi as ->. simpl. lia.
    - specialize (IH i c c' Hi Hlt). simpl. lia. }
  destruct 1; cbn [fst]; eapply Hins; try eassumption; simpl; lia.
Qed.

Lemma stage_bound pool : (stages pool <= 2 * length pool)%nat.
Proof.
  induction pool as [|c pool IH]; simpl; [lia|]. destruct c; simpl; lia.
Qed.

(** C5: [n] calls for the same stored record, their steps interleaved in
    any order around the indivisible store operation.  When all have
    answered, the stored counter is the prior value plus [n], and the
    answers carry the values prior + 1, ..., prior + [n], each exactly once:
    no increment is lost and no two calls saw the same value. *)
Theorem concurrent_views
    (ObjectId_of_str : string → option ObjectId) (n : nat)
    (video_id : string) (oid : ObjectId) (w : World) (d : document)
    (pool' : list call) (w' : World) :
  ObjectId_of_str video_id = Some oid →
  Mongo.find_one (video w) oid = Some d →
  countable_views d = true →
  rtc (step ObjectId_of_str) (replicate n (Called video_id), w) (pool', w') →
  Forall (λ c, is_done c = true) pool' →
  (∃ d', Mongo.find_one (video w') oid = Some d'
         ∧ stored_views d' = stored_views d + Z.of_nat n)
  ∧ length (answered_views pool') = n
  ∧ answered_views pool' ≡ₚ (λ j, VInt (stored_views d + Z.of_nat j)) <$> seq 1 n
  ∧ NoDup (answered_views pool').
Proof.
  intros Hp Hf Hc Hsteps Hdone.
  pose proof (views_inv_steps _ _ _ _ _ _ Hp (views_inv_initial video_id _ _ _ n Hf Hc) Hsteps)
    as (Hall & (d' & Hf' & _ & Hv') & Hperm).
  cbn [fst snd] in *.
  assert (Hlen : length (answered_views pool') = n).
  { rewrite (answered_views_finished _ _ _ Hall Hdone).
    apply steps_length in Hsteps. cbn [fst] in Hsteps.
    by rewrite Hsteps, length_replicate. }
  rewrite Hlen in *.
  split; [by exists d'|]. split; [done|]. split; [done|].
  rewrite Hperm. apply NoDup_fmap_2; [|apply NoDup_seq].
  intros i j [= Hij]. lia.
Qed.

(** Two calls; the second reaches the store before the first. *)
Lemma concurrent_views_witness :
  (∃ d', Mongo.find_one (video demo_second.2) 4096%N = Some d'
         ∧ stored_views d' = stored_views demo_doc + Z.of_nat 2)
  ∧ length (answered_views [Done demo_second.1; Done demo_first.1]) = 2%nat
  ∧ answered_views [Done demo_second.1; Done demo_first.1]
      ≡ₚ (λ j, VInt (stored_views demo_doc + Z.of_nat j)) <$> seq 1 2
  ∧ NoDup (answered_views [Done demo_second.1; Done demo_first.1]).
Proof.
  apply (concurrent_views ObjectId_of_hex 2 demo_id 4096%N demo_world demo_doc
           [Done demo_second.1; Done demo_first.1] demo_second.2).
  - reflexivity.
  - reflexivity.
  - reflexivity.
  - eapply rtc_l.
    { apply (step_parse ObjectId_of_hex [Called demo_id; Called demo_id] demo_world
               1 demo_id 4096%N); reflexivity. }
    eapply rtc_l.
    { apply (step_parse ObjectId_of_hex [Called demo_id; AtStore 4096%N] demo_world
               0 demo_id 4096%N); reflexivity. }
    eapply rtc_l.
    { apply (step_store ObjectId_of_hex [AtStore 4096%N; AtStore 4096%N] demo_world
               1 4096%N demo_first.1 demo_first.2); reflexivity. }
    eapply rtc_l.
    { apply (step_store ObjectId_of_hex [AtStore 4096%N; Done demo_first.1] demo_first.2
               0 4096%N demo_second.1 demo_second.2); reflexivity. }
    apply rtc_refl.
  - repeat constructor.
Defined.

(** A call that runs alone takes its two steps and answers what
    [get_video] answers: the interleaved calls are the handler itself, cut
    at its store operation. *)
Lemma get_video_alone parse w video_id :
  rtc (step parse) ([Called video_id], w)
    ([Done (get_video parse w video_id).1], (get_video parse w video_id).2).
Proof.
  unfold get_video. destruct (parse video_id) as [oid|] eqn:Hp.
  - eapply rtc_l; [by apply (step_parse parse [Called video_id] w 0 video_id oid)|].
    eapply rtc_l; [|apply rtc_refl].
    apply (step_store parse [AtStore oid] w 0 oid); [done|].
    by destruct (get_video_store w oid).
  - eapply rtc_l; [|apply rtc_refl].
    by apply (step_reject parse [Called video_id] w 0 video_id).
Qed.

(** ** Identifiers *)

Lemma hex_value_digit d : (d < 16)%N → hex_value (hex_digit d) = Some d.
Proof.
  intros H. destruct d as [|p]; [done|].
  do 4 (try (destruct p as [p|p|]; try done)); lia.
Qed.

Lemma parse_hex_of k x acc a0 :
  parse_hex (hex_of k x acc) a0 = parse_hex acc (a0 * 16 ^ N.of_nat k + x mod 16 ^ N.of_nat k)%N.
Proof.
  revert x acc a0. induction k as [|k IH]; intros x acc a0.
  - cbn [hex_of]. f_equal. change (16 ^ N.of_nat 0)%N with 1%N.
    rewrite N.mod_1_r. lia.
  - cbn [hex_of]. rewrite IH. cbn [parse_hex].
    rewrite hex_value_digit by (apply N.mod_lt; lia).
    f_equal. rewrite Nat2N.inj_succ, N.pow_succ_r'.
    rewrite (N.Div0.mod_mul_r x 16 (16 ^ N.of_nat k)). lia.
Qed.

(** The string of an identifier parses back to it. *)
Lemma ObjectId_roundtrip o : (o < 2 ^ 96)%N → ObjectId_of_hex (oid_str o) = Some o.
Proof.
  intros H. unfold ObjectId_of_hex. rewrite oid_str_length. cbn [Nat.eqb].
  unfold oid_str. rewrite parse_hex_of. cbn [parse_hex]. f_equal.
  change (16 ^ N.of_nat 24)%N with (2 ^ 96)%N. rewrite N.mod_small by done. lia.
Qed.

(** The identifiers of a collection. *)
Lemma find_one_None c oid : Mongo.find_one c oid = None ↔ oid ∉ _id <$> c.
Proof.
  induction c as [|d c IH]; [split; [intros _; apply not_elem_of_nil|done]|].
  rewrite find_one_cons, fmap_cons, not_elem_of_cons. case_decide as Hd.
  - split; [done|]. by intros [? _].
  - rewrite IH. split; [by split|by intros [_ ?]].
Qed.

(** The handlers keep the identifiers of the collection distinct. *)
Lemma upload_video_unique_ids e w file title description tags r w' :
  upload_video e w file title description tags = (r, w') →
  NoDup (_id <$> video w) → NoDup (_id <$> video w').
Proof.
  rewrite upload_video_cases. intros H Hn.
  destruct (UploadFile.content_type file) as [ct|]; [|by injection H as _ <-].
  destruct (Py.startswith ct "video/"); [|by injection H as _ <-].
  destruct (disk e); try by injection H as _ <-.
  destruct (insert e) as [[oid now]|]; [|by injection H as _ <-].
  destruct (Mongo.find_one (video w) oid) eqn:Hf; injection H as _ <-; [done|].
  cbn [video]. rewrite fmap_app. apply NoDup_app. split; [done|].
  split; [|apply NoDup_singleton].
  intros x Hx ->%list_elem_of_singleton. by apply find_one_None in Hf.
Qed.

Lemma get_video_unique_ids parse w video_id r w' :
  get_video parse w video_id = (r, w') →
  (_id <$> video w') = (_id <$> video w).
Proof.
  unfold get_video. destruct (parse video_id) as [oid|]; [|by intros [= _ <-]].
  destruct (Mongo.find_one (video w) oid) as [d|] eqn:Hf.
  - destruct (countable_views d) eqn:Hc.
    + destruct (get_video_store_found _ _ _ Hf Hc) as (pre & post & Hv & _ & ->).
      intros [= _ <-]. cbn [video]. rewrite Hv, !fmap_app, !fmap_cons. done.
    + rewrite (get_video_store_uncountable _ _ _ Hf Hc). by intros [= _ <-].
  - rewrite (get_video_store_missing _ _ Hf). by intros [= _ <-].
Qed.

(** The identifier an upload returns is accepted by the view handler, which
    then answers with the record of that upload, viewed once. *)
Lemma view_after_upload e w file title description tags id w' :
  upload_video e w file title description tags = (Return id, w') →
  (∀ oid now, insert e = Some (oid, now) → (oid < 2 ^ 96)%N) →
  ∃ out w'',
    get_video ObjectId_of_hex w' id = (Return out, w'')
    ∧ out_id out = id
    ∧ out_views out = VInt 1
    ∧ out_size out = VInt (Z.of_nat (length (UploadFile.file file))).
Proof.
  intros H Hb.
  destruct (upload_video_Return _ _ _ _ _ _ _ _ H)
    as (ct & oid & now & _ & _ & _ & Hi & Hf & -> & ->).
  pose proof (uploaded_document_fields e file title description tags ct oid now)
    as (Hid & _ & _ & _ & Hsize & Hviews & _).
  set (d := uploaded_document e file title description tags ct oid now) in *.
  assert (Hfd : Mongo.find_one (video w ++ [d]) oid = Some d).
  { apply find_one_updated; [|done].
    apply Forall_forall. intros x Hx Hx'. apply find_one_None in Hf.
    apply Hf. rewrite <- Hx'. by apply list_elem_of_fmap_2. }
  assert (Hc : countable_views d = true) by (unfold countable_views; by rewrite Hviews).
  unfold get_video. rewrite (ObjectId_roundtrip _ (Hb _ _ Hi)).
  destruct (get_video_store_found
              (mkWorld (<[safe_name e file:=UploadFile.file file]> (blobs w)) (outside w)
                 (video w ++ [d])) oid d Hfd Hc) as (pre & post & _ & _ & ->).
  eexists _, _. split; [done|].
  unfold project, viewed, stored_views, doc_get, doc_get_default.
  cbn [out_id out_views out_size _id fields]. rewrite Hid, Hviews.
  split; [done|].
  rewrite !(lookup_insert_ne _ "updated_at") by done.
  rewrite lookup_insert_eq. rewrite lookup_insert_ne by done. by rewrite Hsize.
Qed.

(** * Further properties of the handlers *)

(** ** Tags *)

Lemma split_no_sep_id sep p : Py.has_char sep p = false → Py.split sep p = [p].
Proof.
  induction p as [|c p IH]; [done|]. simpl.
  intros [Hc Hp]%orb_false_elim. apply bool_decide_eq_false in Hc.
  rewrite decide_False by done. by rewrite (IH Hp).
Qed.

Lemma split_app_sep sep p r :
  Py.has_char sep p = false →
  Py.split sep (p +:+ String sep r) = p :: Py.split sep r.
Proof.
  induction p as [|c p IH].
  - intros _. change ("" +:+ String sep r) with (String sep r). simpl.
    by rewrite decide_True.
  - rewrite app_str_cons. simpl. intros [Hc Hp]%orb_false_elim.
    apply bool_decide_eq_false in Hc.
    rewrite decide_False by done. by rewrite (IH Hp).
Qed.

(** Pieces without the separator, joined and split again, come back. *)
Lemma split_join sep l :
  l ≠ [] →
  Forall (λ p, Py.has_char sep p = false) l →
  Py.split sep (join sep l) = l.
Proof.
  induction l as [|p l IH]; [done|]. intros _ Hall.
  inversion Hall as [|? ? Hp Hl]; subst.
  destruct l as [|q l].
  - by apply split_no_sep_id.
  - change (join sep (p :: q :: l)) with (p +:+ String sep (join sep (q :: l))).
    rewrite split_app_sep by done. by rewrite IH.
Qed.

Lemma strip_nonempty_id l :
  Forall (λ t, t ≠ "" ∧ Py.strip t = t) l → strip_nonempty l = l.
Proof.
  induction 1 as [|t l [Hne Hs] _ IH]; [done|]. simpl.
  rewrite Hs, IH. by destruct t.
Qed.

(** X1: a list of tags that are non-empty, stripped and free of commas,
    written as a comma-separated string, is parsed back to the same list:
    same tags, same order, repetitions kept. *)
Theorem parse_tags_join (l : list string) :
  Forall (λ t, t ≠ "" ∧ Py.strip t = t ∧ Py.has_char "," t = false) l →
  parse_tags (Some (join "," l)) = l.
Proof.
  intros Hall. unfold parse_tags.
  assert (Hor : Py.or_else (Some (join "," l)) "" = join "," l)
    by by destruct (join "," l).
  rewrite Hor. destruct l as [|t l]; [done|].
  rewrite split_join.
  - apply strip_nonempty_id. eapply Forall_impl; [done|]. by intros x (? & ? & _).
  - done.
  - eapply Forall_impl; [done|]. by intros x (_ & _ & ?).
Qed.

Lemma parse_tags_join_witness :
  parse_tags (Some (join "," ["news"; "big cats"; "news"])) = ["news"; "big cats"; "news"].
Proof.
  apply (parse_tags_join ["news"; "big cats"; "news"]).
  repeat constructor; done.
Defined.

Lemma has_char_lstrip c s : Py.has_char c s = false → Py.has_char c (Py.lstrip s) = false.
Proof.
  induction s as [|d s IH]; [done|]. simpl.
  intros [Hd Hs]%orb_false_elim. destruct (Py.is_space d); [by apply IH|].
  simpl. by rewrite Hd, Hs.
Qed.

Lemma has_char_rstrip c s : Py.has_char c s = false → Py.has_char c (Py.rstrip s) = false.
Proof.
  induction s as [|d s IH]; [done|]. simpl.
  intros [Hd Hs]%orb_false_elim. specialize (IH Hs).
  destruct (Py.rstrip s) as [|x r]; simpl in *.
  - destruct (Py.is_space d); [done|]. simpl. by rewrite Hd.
  - by rewrite Hd, IH.
Qed.

(** X2: no parsed tag holds a comma, whatever the input. *)
Theorem parse_tags_no_comma (tags : option string) :
  Forall (λ t, Py.has_char "," t = false) (parse_tags tags).
Proof.
  unfold parse_tags. rewrite strip_nonempty_filter.
  apply Forall_forall. intros t [_ Hin]%list_elem_of_filter.
  apply list_elem_of_In, in_map_iff in Hin as (p & <- & Hp).
  apply list_elem_of_In in Hp.
  pose proof (split_no_sep "," (Py.or_else tags "")) as Hall.
  rewrite Forall_forall in Hall.
  apply has_char_lstrip, has_char_rstrip, Hall, Hp.
Qed.

(** ** Where an upload writes *)

Lemma rfind_drop_head c s :
  0 <= os_path.rfind c s →
  ∃ r, os_path.drop (Z.to_nat (os_path.rfind c s)) s = String c r.
Proof.
  induction s as [|d s IH]; simpl; [lia|].
  destruct (0 <=? os_path.rfind c s) eqn:E.
  - apply Z.leb_le in E. intros _. destruct (IH E) as [r Hr].
    exists r. rewrite Z2Nat.inj_add by lia. rewrite Nat.add_comm. simpl. done.
  - case_decide as Hd; [|lia]. subst d. intros _. by exists s.
Qed.

(** The extension [os.path.splitext] returns is empty or begins with a
    dot. *)
Lemma splitext_ext_dot p :
  (os_path.splitext p).2 = "" ∨ ∃ r, (os_path.splitext p).2 = String "." r.
Proof.
  unfold os_path.splitext.
  destruct (os_path.rfind "/" p <? os_path.rfind "." p) eqn:E; [|by left].
  apply Z.ltb_lt in E. destruct (os_path.has_non_dot _); [|by left].
  right. simpl. apply rfind_drop_head. pose proof (rfind_lower "/" p). lia.
Qed.

Lemma join_storage_dir name :
  Py.has_char "/" name = false →
  os_path.join STORAGE_DIR name = "uploads/" +:+ name.
Proof.
  intros H. unfold os_path.join.
  assert (Hp : Py.startswith name "/" = false).
  { destruct name as [|c r]; [done|]. simpl in *.
    apply orb_false_elim in H as [-> _]. done. }
  by rewrite Hp.
Qed.

(** X3: whatever file name the client sends, with directory parts or dots,
    the upload writes directly inside the storage directory: the path is
    [uploads/] followed by the 24 hexadecimal digits of the generated
    identifier and an extension that is empty or begins with a dot; the
    stored name holds no separator and is not a directory name. *)
Theorem upload_destination_confined (e : env) (file : UploadFile.t) :
  os_path.join STORAGE_DIR (safe_name e file) = "uploads/" +:+ safe_name e file
  ∧ storage_entry (os_path.join STORAGE_DIR (safe_name e file)) = Some (safe_name e file)
  ∧ Py.has_char "/" (safe_name e file) = false
  ∧ is_dot (safe_name e file) = false
  ∧ ∃ ext,
      safe_name e file = oid_str (new_ObjectId e) +:+ ext
      ∧ String.length (oid_str (new_ObjectId e)) = 24%nat
      ∧ string_forall is_hex_lower (oid_str (new_ObjectId e)) = true
      ∧ (ext = "" ∨ ∃ r, ext = String "." r).
Proof.
  split; [apply join_storage_dir, safe_name_no_sep|].
  split; [apply destination_entry|].
  split; [apply safe_name_no_sep|].
  split; [apply safe_name_not_dot|].
  eexists. split; [reflexivity|].
  split; [apply oid_str_length|]. split; [apply oid_str_is_hex|].
  apply splitext_ext_dot.
Qed.

(** ** What an upload leaves behind *)

(** Every outcome of the handler, with the stores it leaves. *)
Lemma upload_video_outcome e w file title description tags r w' :
  upload_video e w file title description tags = (r, w') →
  outside w' = outside w
  ∧ ((∃ x, r = Raise x ∧ video w' = video w)
     ∨ (∃ ct oid now,
          r = Return (oid_str oid)
          ∧ UploadFile.content_type file = Some ct
          ∧ Py.startswith ct "video/" = true
          ∧ video w' = video w ++ [uploaded_document e file title description tags ct oid now]
          ∧ blobs w' = <[safe_name e file := UploadFile.file file]> (blobs w))).
Proof.
  rewrite upload_video_cases.
  destruct (UploadFile.content_type file) as [ct|] eqn:Hct;
    [|intros [= <- <-]; split; [done|left; eauto]].
  destruct (Py.startswith ct "video/") eqn:Hv;
    [|intros [= <- <-]; split; [done|left; eauto]].
  destruct (disk e); try (intros [= <- <-]; split; [done|left; eauto]).
  destruct (insert e) as [[oid now]|];
    [|intros [= <- <-]; split; [done|left; eauto]].
  destruct (Mongo.find_one (video w) oid);
    intros [= <- <-]; (split; [done|]); [left; eauto|].
  right. exists ct, oid, now. auto.
Qed.

(** X4: an upload that ends in an error, of whatever kind, inserts no
    record: the collection is as before. *)
Theorem upload_video_error_no_record e w file title description tags x w' :
  upload_video e w file title description tags = (Raise x, w') →
  video w' = video w.
Proof.
  intros H. destruct (upload_video_outcome _ _ _ _ _ _ _ _ H) as [_ [(? & _ & ?)|Hr]]; [done|].
  by destruct Hr as (? & ? & ? & ? & _).
Qed.

Lemma upload_video_error_no_record_witness :
  video (upload_video (mkEnv 255%N Written None) demo_world demo_file None None None).2
  = video demo_world.
Proof.
  apply (upload_video_error_no_record (mkEnv 255%N Written None) demo_world demo_file
           None None None StorageWriteError).
  reflexivity.
Defined.

(** X5: when the file is written and the insertion then fails, the handler
    raises the store's error and does not remove the file: the uploaded
    bytes stay under the generated name, with no record for them. *)
Theorem upload_video_orphan e w file title description tags :
  is_video file = true →
  disk e = Written →
  insert e = None →
  ∃ w',
    upload_video e w file title description tags = (Raise StorageWriteError, w')
    ∧ video w' = video w
    ∧ blobs w' !! safe_name e file = Some (UploadFile.file file).
Proof.
  unfold is_video. intros Hv Hd Hi. rewrite upload_video_cases, Hd, Hi.
  destruct (UploadFile.content_type file) as [ct|]; [|done]. rewrite Hv.
  eexists. split; [reflexivity|]. split; [done|]. cbn [blobs].
  by rewrite lookup_insert_eq.
Qed.

Lemma upload_video_orphan_witness :
  ∃ w',
    upload_video (mkEnv 255%N Written None) empty_world demo_file None None None
      = (Raise StorageWriteError, w')
    ∧ video w' = video empty_world
    ∧ blobs w' !! safe_name (mkEnv 255%N Written None) demo_file
      = Some (UploadFile.file demo_file).
Proof.
  apply (upload_video_orphan (mkEnv 255%N Written None) empty_world demo_file None None None);
    reflexivity.
Defined.

Lemma or_else_truthy x d : Py.truthy d = true → Py.truthy (Py.or_else x d) = true.
Proof. intros Hd. by destruct x as [[|c s]|]. Qed.

(** X6: the record of an accepted upload always has a non-empty title, a
    content type that begins with [video/], a counter at 0, the parsed
    tags and the generated name; its identifier is the one returned. *)
Theorem upload_video_record e w file title description tags id w' :
  upload_video e w file title description tags = (Return id, w') →
  ∃ d t ct,
    video w' = video w ++ [d]
    ∧ oid_str (_id d) = id
    ∧ fields d !! "title" = Some (VStr t) ∧ Py.truthy t = true
    ∧ fields d !! "content_type" = Some (VStr ct) ∧ Py.startswith ct "video/" = true
    ∧ UploadFile.content_type file = Some ct
    ∧ fields d !! "views" = Some (VInt 0)
    ∧ fields d !! "tags" = Some (VList (parse_tags tags))
    ∧ fields d !! "filename" = Some (VStr (safe_name e file)).
Proof.
  intros H.
  destruct (upload_video_Return _ _ _ _ _ _ _ _ H)
    as (ct & oid & now & Hct & Hv & _ & _ & _ & -> & ->).
  pose proof (uploaded_document_fields e file title description tags ct oid now)
    as (Hid & Ht & Hf & Hc & _ & Hvw & Htg & _).
  exists (uploaded_document e file title description tags ct oid now),
    (default_title title file), ct.
  cbn [video]. rewrite Hid. repeat split; try done.
  unfold default_title. by apply or_else_truthy, or_else_truthy.
Qed.

Lemma upload_video_record_witness :
  ∃ d t ct,
    video demo_world = video empty_world ++ [d]
    ∧ oid_str (_id d) = demo_id
    ∧ fields d !! "title" = Some (VStr t) ∧ Py.truthy t = true
    ∧ fields d !! "content_type" = Some (VStr ct) ∧ Py.startswith ct "video/" = true
    ∧ UploadFile.content_type demo_file = Some ct
    ∧ fields d !! "views" = Some (VInt 0)
    ∧ fields d !! "tags" = Some (VList (parse_tags (Some "Cat, x")))
    ∧ fields d !! "filename" = Some (VStr (safe_name demo_env demo_file)).
Proof.
  apply (upload_video_record demo_env empty_world demo_file None (Some "d") (Some "Cat, x")
           demo_id demo_world).
  reflexivity.
Defined.

(** X7: a non-empty title given by the caller is stored as it is; the
    client's file name plays no part then. *)
Theorem upload_video_given_title e w file t description tags id w' :
  upload_video e w file (Some t) description tags = (Return id, w') →
  t ≠ "" →
  ∃ d, video w' = video w ++ [d] ∧ fields d !! "title" = Some (VStr t).
Proof.
  intros H Ht.
  destruct (upload_video_Return _ _ _ _ _ _ _ _ H)
    as (ct & oid & now & _ & _ & _ & _ & _ & _ & ->).
  exists (uploaded_document e file (Some t) description tags ct oid now).
  split; [reflexivity|].
  destruct (uploaded_document_fields e file (Some t) description tags ct oid now)
    as (_ & -> & _).
  unfold default_title. by destruct t.
Qed.

Lemma upload_video_given_title_witness :
  ∃ d, video demo_world2 = video demo_world ++ [d]
       ∧ fields d !! "title" = Some (VStr "Dog").
Proof.
  apply (upload_video_given_title demo_env2 demo_world demo_file "Dog" None (Some "pets")
           "000000000000000000001001" demo_world2).
  - reflexivity.
  - discriminate.
Defined.

(** X8: after an accepted upload, the unfiltered listing is the previous
    listing followed by one entry for the new record: it carries the
    returned identifier, the counter 0, the number of uploaded bytes, the
    declared content type and the parsed tags. *)
Theorem upload_then_list e w file title description tags id w' :
  upload_video e w file title description tags = (Return id, w') →
  ∃ l out,
    list_videos w None = Some l
    ∧ list_videos w' None = Some (l ++ [out])
    ∧ out_id out = id
    ∧ out_views out = VInt 0
    ∧ out_size out = VInt (Z.of_nat (length (UploadFile.file file)))
    ∧ Some (out_content_type out) = VStr <$> UploadFile.content_type file
    ∧ out_tags out = VList (parse_tags tags)
    ∧ out_filename out = VStr (safe_name e file).
Proof.
  intros H.
  destruct (upload_video_Return _ _ _ _ _ _ _ _ H)
    as (ct & oid & now & Hct & _ & _ & _ & _ & -> & ->).
  pose proof (uploaded_document_fields e file title description tags ct oid now)
    as (Hid & _ & Hf & Hc & Hs & Hvw & Htg & _).
  exists (project <$> video w),
    (project (uploaded_document e file title description tags ct oid now)).
  split; [reflexivity|].
  split. { unfold list_videos. cbn [truthy_opt get_documents Mongo.find video].
           by rewrite map_app. }
  unfold project, doc_get, doc_get_default.
  cbn [out_id out_views out_size out_content_type out_tags out_filename].
  rewrite Hid, Hf, Hc, Hs, Hvw, Htg, Hct. done.
Qed.

Lemma upload_then_list_witness :
  ∃ l out,
    list_videos demo_world None = Some l
    ∧ list_videos demo_world2 None = Some (l ++ [out])
    ∧ out_id out = "000000000000000000001001"
    ∧ out_views out = VInt 0
    ∧ out_size out = VInt (Z.of_nat (length (UploadFile.file demo_file)))
    ∧ Some (out_content_type out) = VStr <$> UploadFile.content_type demo_file
    ∧ out_tags out = VList (parse_tags (Some "pets"))
    ∧ out_filename out = VStr (safe_name demo_env2 demo_file).
Proof.
  apply (upload_then_list demo_env2 demo_world demo_file (Some "Dog") None (Some "pets")
           "000000000000000000001001" demo_world2).
  reflexivity.
Defined.

(** X9: the identifier an accepted upload returns is accepted by the view
    route (with bson's rule for identifiers), and the first view answers
    with the record of that upload: same identifier, the counter at 1, the
    number of uploaded bytes as size. *)
Theorem upload_then_view e w file title description tags id w' :
  upload_video e w file title description tags = (Return id, w') →
  (∀ oid now, insert e = Some (oid, now) → (oid < 2 ^ 96)%N) →
  ∃ out w'',
    get_video ObjectId_of_hex w' id = (Return out, w'')
    ∧ out_id out = id
    ∧ out_views out = VInt 1
    ∧ out_size out = VInt (Z.of_nat (length (UploadFile.file file)))
    ∧ blobs w'' = blobs w'.
Proof.
  intros H Hb.
  destruct (view_after_upload _ _ _ _ _ _ _ _ H Hb) as (out & w'' & Hg & ? & ? & ?).
  exists out, w''. repeat split; try done. by eapply get_video_keeps_blobs.
Qed.

Lemma upload_then_view_witness :
  ∃ out w'',
    get_video ObjectId_of_hex demo_world demo_id = (Return out, w'')
    ∧ out_id out = demo_id
    ∧ out_views out = VInt 1
    ∧ out_size out = VInt (Z.of_nat (length (UploadFile.file demo_file)))
    ∧ blobs w'' = blobs demo_world.
Proof.
  apply (upload_then_view demo_env empty_world demo_file None (Some "d") (Some "Cat, x")
           demo_id demo_world).
  - reflexivity.
  - intros oid now [= <- _]. reflexivity.
Defined.

(** X10: after an accepted upload, streaming the stored name answers with
    the file at [uploads/<name>], sent as [application/octet-stream]
    whatever type was declared, and its bytes are the uploaded ones. *)
Theorem upload_then_stream e w file title description tags id w' :
  upload_video e w file title description tags = (Return id, w') →
  stream_file w' (safe_name e file)
    = Return (mkFileResponse ("uploads/" +:+ safe_name e file) "application/octet-stream")
  ∧ send w' (mkFileResponse ("uploads/" +:+ safe_name e file) "application/octet-stream")
    = Return (UploadFile.file file).
Proof.
  intros H.
  destruct (upload_video_Return _ _ _ _ _ _ _ _ H)
    as (ct & oid & now & _ & _ & _ & _ & _ & _ & ->).
  pose proof (safe_name_no_sep e file) as Hs.
  pose proof (safe_name_not_dot e file) as Hd.
  rewrite stream_file_segment by done. cbn [blobs].
  rewrite Hd, lookup_insert_eq, join_storage_dir by done.
  split; [done|].
  unfold send, lookup_path. cbn [path blobs].
  rewrite <- (join_storage_dir _ Hs), (storage_entry_join _ Hs), Hd.
  by rewrite lookup_insert_eq.
Qed.

Lemma upload_then_stream_witness :
  stream_file demo_world (safe_name demo_env demo_file)
    = Return (mkFileResponse ("uploads/" +:+ safe_name demo_env demo_file)
                "application/octet-stream")
  ∧ send demo_world (mkFileResponse ("uploads/" +:+ safe_name demo_env demo_file)
                       "application/octet-stream")
    = Return (UploadFile.file demo_file).
Proof.
  apply (upload_then_stream demo_env empty_world demo_file None (Some "d") (Some "Cat, x")
           demo_id demo_world).
  reflexivity.
Defined.

(** ** Streaming, for the names the route can deliver *)

(** X11: for a name of one path segment other than [.] and [..], the
    stream route answers [NotFound] exactly when no file is stored under
    the name; otherwise it answers with the stored bytes. *)
Theorem stream_file_not_found_iff (w : World) (filename : string) :
  path_segment filename = true →
  is_dot filename = false →
  (is_NotFound (stream_file w filename) = true ↔ blobs w !! filename = None)
  ∧ (∀ content, blobs w !! filename = Some content →
       ∃ r, stream_file w filename = Return r ∧ send w r = Return content).
Proof.
  intros Hseg Hd.
  assert (Hs : Py.has_char "/" filename = false).
  { by apply andb_prop in Hseg as [_ ?%negb_true_iff]. }
  split.
  - rewrite stream_file_segment, Hd by done.
    destruct (blobs w !! filename) as [content|] eqn:Hb.
    + rewrite bool_decide_eq_true_2 by done. done.
    + rewrite bool_decide_eq_false_2 by (by intros [? ?]). done.
  - intros content Hb. by apply stream_file_stored.
Qed.

Lemma stream_file_not_found_iff_witness :
  (is_NotFound (stream_file demo_world "cat.mp4") = true
     ↔ blobs demo_world !! "cat.mp4" = None)
  ∧ (∀ content, blobs demo_world !! "cat.mp4" = Some content →
       ∃ r, stream_file demo_world "cat.mp4" = Return r
            ∧ send demo_world r = Return content).
Proof.
  apply (stream_file_not_found_iff demo_world "cat.mp4"); reflexivity.
Defined.

(** ** Sequences of requests *)

Lemma handle_keeps_blob parse w r key content :
  stored_name r ≠ Some key →
  blobs w !! key = Some content →
  blobs (handle parse w r) !! key = Some content.
Proof.
  intros Hn Hb. destruct r as [e file title description tags|q|video_id|filename];
    cbn [handle]; try done.
  - destruct (upload_video e w file title description tags) as [r w'] eqn:E.
    eapply upload_video_keeps_blob; [done| |done].
    intros ->. by apply Hn.
  - destruct (get_video parse w video_id) as [r w'] eqn:E.
    cbn [snd]. by rewrite (get_video_keeps_blobs _ _ _ _ _ E).
Qed.

(** X12: a stored file outlives every later request: after any sequence of
    uploads, listings, views and streams in which no upload generates the
    same name again, streaming the name still answers with the same
    bytes. *)
Theorem run_keeps_blob (ObjectId_of_str : string → option ObjectId)
    (rs : list request) (w : World) (key : string) (content : list Byte.byte) :
  Py.has_char "/" key = false →
  is_dot key = false →
  blobs w !! key = Some content →
  Forall (λ r, stored_name r ≠ Some key) rs →
  blobs (run ObjectId_of_str w rs) !! key = Some content
  ∧ ∃ r, stream_file (run ObjectId_of_str w rs) key = Return r
         ∧ send (run ObjectId_of_str w rs) r = Return content.
Proof.
  intros Hs Hd Hb Hall.
  assert (Hrun : blobs (run ObjectId_of_str w rs) !! key = Some content).
  { revert w Hb. induction Hall as [|r rs Hr _ IH]; intros w Hb; [done|].
    cbn [run fold_left]. apply IH. by apply handle_keeps_blob. }
  split; [done|]. by apply stream_file_stored.
Qed.

Lemma run_keeps_blob_witness :
  blobs (run ObjectId_of_hex demo_world
           [GET_video demo_id;
            POST_videos demo_env2 demo_file (Some "Dog") None (Some "pets");
            GET_videos (Some "dog"); GET_stream "nothing"])
    !! safe_name demo_env demo_file = Some (UploadFile.file demo_file)
  ∧ ∃ r, stream_file (run ObjectId_of_hex demo_world
           [GET_video demo_id;
            POST_videos demo_env2 demo_file (Some "Dog") None (Some "pets");
            GET_videos (Some "dog"); GET_stream "nothing"])
           (safe_name demo_env demo_file) = Return r
         ∧ send (run ObjectId_of_hex demo_world
           [GET_video demo_id;
            POST_videos demo_env2 demo_file (Some "Dog") None (Some "pets");
            GET_videos (Some "dog"); GET_stream "nothing"]) r
           = Return (UploadFile.file demo_file).
Proof.
  apply (run_keeps_blob ObjectId_of_hex
           [GET_video demo_id;
            POST_videos demo_env2 demo_file (Some "Dog") None (Some "pets");
            GET_videos (Some "dog"); GET_stream "nothing"]
           demo_world (safe_name demo_env demo_file) (UploadFile.file demo_file)).
  - reflexivity.
  - reflexivity.
  - reflexivity.
  - repeat constructor; discriminate.
Defined.

Lemma find_one_app_l c x o d :
  Mongo.find_one c o = Some d → Mongo.find_one (c ++ [x]) o = Some d.
Proof.
  induction c as [|y c IH]; [done|].
  change ((y :: c) ++ [x]) with (y :: (c ++ [x])). rewrite !find_one_cons.
  case_decide; [done|apply IH].
Qed.

Lemma find_one_replace pre post x x' o d :
  _id x' = _id x →
  Mongo.find_one (pre ++ x :: post) o = Some d →
  Mongo.find_one (pre ++ x' :: post) o = Some d
  ∨ (d = x ∧ Mongo.find_one (pre ++ x' :: post) o = Some x').
Proof.
  intros Hid. induction pre as [|y pre IH].
  - cbn [app]. rewrite !find_one_cons, Hid. case_decide.
    + intros [= <-]. by right.
    + intros ?. by left.
  - change ((y :: pre) ++ ?a :: post) with (y :: (pre ++ a :: post)).
    rewrite !find_one_cons. case_decide; [by left|apply IH].
Qed.

(** What one request does to a stored record. *)
Lemma handle_keeps_record parse w r o d :
  Mongo.find_one (video w) o = Some d →
  Mongo.find_one (video (handle parse w r)) o = Some d
  ∨ Mongo.find_one (video (handle parse w r)) o = Some (viewed d).
Proof.
  intros Hf. destruct r as [e file title description tags|q|video_id|filename];
    cbn [handle]; try by left.
  - left. destruct (upload_video e w file title description tags) as [r w'] eqn:E.
    destruct (upload_video_outcome _ _ _ _ _ _ _ _ E) as [_ [(x & _ & Hv)|Hr]].
    + cbn [snd]. by rewrite Hv.
    + destruct Hr as (ct & oid & now & _ & _ & _ & Hv & _). cbn [snd]. rewrite Hv.
      by apply find_one_app_l.
  - unfold get_video. destruct (parse video_id) as [oid|]; [|by left].
    destruct (Mongo.find_one (video w) oid) as [d0|] eqn:Hf0.
    + destruct (countable_views d0) eqn:Hc.
      * destruct (get_video_store_found _ _ _ Hf0 Hc) as (pre & post & Hv & _ & ->).
        cbn [snd video]. rewrite Hv in Hf.
        destruct (find_one_replace pre post d0 (viewed d0) o d eq_refl Hf) as [?|[-> ?]];
          [by left|by right].
      * rewrite (get_video_store_uncountable _ _ _ Hf0 Hc). by left.
    + rewrite (get_video_store_missing _ _ Hf0). by left.
Qed.

Lemma viewed_frame d k :
  k ≠ "views" → k ≠ "updated_at" → fields (viewed d) !! k = fields d !! k.
Proof. intros ??. unfold viewed. cbn [fields]. by rewrite !lookup_insert_ne. Qed.

(** X13: no request removes or rewrites a record: after any sequence of
    requests a stored record is still found under its identifier, its
    counter is not lower than before, and every field other than [views]
    and [updated_at] has kept its value. *)
Theorem run_keeps_record (ObjectId_of_str : string → option ObjectId)
    (rs : list request) (w : World) (o : ObjectId) (d : document) :
  Mongo.find_one (video w) o = Some d →
  ∃ d',
    Mongo.find_one (video (run ObjectId_of_str w rs)) o = Some d'
    ∧ stored_views d <= stored_views d'
    ∧ ∀ k, k ≠ "views" → k ≠ "updated_at" → fields d' !! k = fields d !! k.
Proof.
  revert w d. induction rs as [|r rs IH]; intros w d Hf.
  - exists d. split; [done|]. split; [lia|done].
  - cbn [run fold_left].
    destruct (handle_keeps_record ObjectId_of_str w r o d Hf) as [H|H];
      destruct (IH _ _ H) as (d' & Hf' & Hv & Hk); exists d'; (split; [done|]).
    + done.
    + rewrite stored_views_viewed in Hv. split; [lia|].
      intros k Hk1 Hk2. by rewrite Hk, viewed_frame.
Qed.

Lemma run_keeps_record_witness :
  ∃ d',
    Mongo.find_one (video (run ObjectId_of_hex demo_world
        [GET_video demo_id;
         POST_videos demo_env2 demo_file (Some "Dog") None (Some "pets");
         GET_video demo_id])) 4096%N = Some d'
    ∧ stored_views demo_doc <= stored_views d'
    ∧ ∀ k, k ≠ "views" → k ≠ "updated_at" → fields d' !! k = fields demo_doc !! k.
Proof.
  apply (run_keeps_record ObjectId_of_hex
           [GET_video demo_id;
            POST_videos demo_env2 demo_file (Some "Dog") None (Some "pets");
            GET_video demo_id] demo_world 4096%N demo_doc).
  reflexivity.
Defined.

Lemma upload_video_blobs_grow e w file title description tags r w' key :
  upload_video e w file title description tags = (r, w') →
  is_Some (blobs w !! key) → is_Some (blobs w' !! key).
Proof.
  rewrite upload_video_cases. intros H Hk.
  assert (Hins : ∀ c, is_Some (<[safe_name e file := c]> (blobs w) !! key)).
  { intros c. destruct (decide (safe_name e file = key)) as [->|Hne].
    - rewrite lookup_insert_eq. eauto.
    - by rewrite lookup_insert_ne. }
  destruct (UploadFile.content_type file) as [ct|]; [|by injection H as _ <-].
  destruct (Py.startswith ct "video/"); [|by injection H as _ <-].
  destruct (disk e).
  - destruct (insert e) as [[oid now]|];
      [destruct (Mongo.find_one (video w) oid)|];
      injection H as _ <-; cbn [blobs]; apply Hins.
  - by injection H as _ <-.
  - injection H as _ <-. cbn [blobs]. apply Hins.
Qed.

Lemma has_blob_mono w w' d :
  (∀ key, is_Some (blobs w !! key) → is_Some (blobs w' !! key)) →
  has_blob w d → has_blob w' d.
Proof. intros Hm (key & ? & ? & ? & ?). exists key. auto. Qed.

(** Every request keeps the records backed by their files. *)
Lemma handle_has_blob parse w r :
  Forall (has_blob w) (video w) →
  Forall (has_blob (handle parse w r)) (video (handle parse w r)).
Proof.
  intros Hall. destruct r as [e file title description tags|q|video_id|filename];
    cbn [handle]; try done.
  - destruct (upload_video e w file title description tags) as [r w'] eqn:E.
    cbn [snd].
    assert (Hm : ∀ key, is_Some (blobs w !! key) → is_Some (blobs w' !! key))
      by (intros key; by eapply upload_video_blobs_grow).
    destruct (upload_video_outcome _ _ _ _ _ _ _ _ E) as [_ [(x & _ & Hv)|Hr]].
    + rewrite Hv. eapply Forall_impl; [done|]. intros d. by apply has_blob_mono.
    + destruct Hr as (ct & oid & now & _ & _ & _ & Hv & Hb). rewrite Hv.
      apply Forall_app. split.
      * eapply Forall_impl; [done|]. intros d. by apply has_blob_mono.
      * apply Forall_singleton. exists (safe_name e file).
        split; [apply uploaded_document_fields|].
        split; [apply safe_name_no_sep|]. split; [apply safe_name_not_dot|].
        rewrite Hb, lookup_insert_eq. eauto.
  - destruct (get_video parse w video_id) as [r w'] eqn:E. cbn [snd].
    pose proof (get_video_keeps_blobs _ _ _ _ _ E) as Hb.
    assert (Hsame : ∀ d, has_blob w d → has_blob w' d).
    { intros d (key & ? & ? & ? & ?). exists key. by rewrite Hb. }
    unfold get_video in E. destruct (parse video_id) as [oid|];
      [|injection E as _ <-; by eapply Forall_impl].
    destruct (Mongo.find_one (video w) oid) as [d0|] eqn:Hf0.
    + destruct (countable_views d0) eqn:Hc.
      * destruct (get_video_store_found _ _ _ Hf0 Hc) as (pre & post & Hv & _ & He).
        rewrite He in E. injection E as _ <-. cbn [video blobs] in *.
        rewrite Hv in Hall. apply Forall_app in Hall as [Hpre Hpost].
        apply Forall_cons in Hpost as [Hd0 Hpost].
        apply Forall_app. split; [by eapply Forall_impl|].
        apply Forall_cons. split; [|by eapply Forall_impl].
        destruct Hd0 as (key & Hk & ? & ? & ?). exists key.
        rewrite viewed_frame by done. auto.
      * rewrite (get_video_store_uncountable _ _ _ Hf0 Hc) in E.
        injection E as _ <-. by eapply Forall_impl.
    + rewrite (get_video_store_missing _ _ Hf0) in E.
      injection E as _ <-. by eapply Forall_impl.
Qed.

Lemma run_has_blob parse rs w :
  Forall (has_blob w) (video w) →
  Forall (has_blob (run parse w rs)) (video (run parse w rs)).
Proof.
  revert w. induction rs as [|r rs IH]; intros w Hall; [done|].
  cbn [run fold_left]. by apply IH, handle_has_blob.
Qed.

(** X14: no record is left without its file.  After any sequence of
    requests on the service started empty, every entry of the listing names
    a file that the stream route finds: the answer is a file response and
    not [NotFound]. *)
Theorem listed_videos_can_be_streamed (ObjectId_of_str : string → option ObjectId)
    (rs : list request) (out : VideoOut) :
  (∃ l, list_videos (run ObjectId_of_str empty_world rs) None = Some l ∧ out ∈ l) →
  ∃ key r content,
    out_filename out = VStr key
    ∧ stream_file (run ObjectId_of_str empty_world rs) key = Return r
    ∧ send (run ObjectId_of_str empty_world rs) r = Return content.
Proof.
  intros (l & Hl & Hin).
  unfold list_videos in Hl. cbn [truthy_opt get_documents Mongo.find] in Hl.
  injection Hl as <-.
  apply list_elem_of_In, in_map_iff in Hin as (d & <- & Hd). apply list_elem_of_In in Hd.
  pose proof (run_has_blob ObjectId_of_str rs empty_world (Forall_nil_2 _)) as Hall.
  rewrite Forall_forall in Hall.
  destruct (Hall d Hd) as (key & Hk & Hs & Hdot & [content Hb]).
  destruct (stream_file_stored _ _ _ Hs Hdot Hb) as (r & Hr & Hsend).
  exists key, r, content. split; [|done].
  unfold project, doc_get. cbn [out_filename]. by rewrite Hk.
Qed.

Lemma listed_videos_can_be_streamed_witness :
  ∃ key r content,
    out_filename (project demo_doc) = VStr key
    ∧ stream_file (run ObjectId_of_hex empty_world
          [POST_videos demo_env demo_file None (Some "d") (Some "Cat, x");
           POST_videos demo_env2 demo_file (Some "Dog") None (Some "pets")]) key
      = Return r
    ∧ send (run ObjectId_of_hex empty_world
          [POST_videos demo_env demo_file None (Some "d") (Some "Cat, x");
           POST_videos demo_env2 demo_file (Some "Dog") None (Some "pets")]) r
      = Return content.
Proof.
  apply (listed_videos_can_be_streamed ObjectId_of_hex
           [POST_videos demo_env demo_file None (Some "d") (Some "Cat, x");
            POST_videos demo_env2 demo_file (Some "Dog") None (Some "pets")]
           (project demo_doc)).
  eexists. split; [reflexivity|]. apply list_elem_of_here.
Defined.

(** X15: the answer of a successful view is the record as the listing
    shows it right after: the incremented counter is what every later
    reader sees. *)
Theorem view_then_list (ObjectId_of_str : string → option ObjectId)
    (w w' : World) (video_id : string) (out : VideoOut) :
  get_video ObjectId_of_str w video_id = (Return out, w') →
  ∃ l, list_videos w' None = Some l
       ∧ out ∈ l
       ∧ length l = length (video w).
Proof.
  unfold get_video. destruct (ObjectId_of_str video_id) as [oid|]; [|done].
  intros H. destruct (get_video_store_Return _ _ _ _ H) as (d & Hf & Hc).
  destruct (get_video_store_found _ _ _ Hf Hc) as (pre & post & Hv & _ & He).
  rewrite He in H. injection H as <- <-.
  eexists. split; [reflexivity|]. cbn [video]. split.
  - apply list_elem_of_In, in_map_iff. exists (viewed d). split; [done|].
    apply list_elem_of_In, elem_of_app. right. apply list_elem_of_here.
  - rewrite length_map, Hv, !length_app. done.
Qed.

Lemma view_then_list_witness :
  ∃ l, list_videos demo_first.2 None = Some l
       ∧ project (viewed demo_doc) ∈ l
       ∧ length l = length (video demo_world).
Proof.
  apply (view_then_list ObjectId_of_hex demo_world demo_first.2 demo_id
           (project (viewed demo_doc))).
  reflexivity.
Defined.

(** ** Searching, for the queries that hold no metacharacter *)

Lemma ci_prefix_lower q q' s :
  lower_str q = lower_str q' → ci_prefix q s = ci_prefix q' s.
Proof.
  revert q' s. induction q as [|a q IH]; intros [|a' q'] s H; try done.
  cbn [lower_str] in H. injection H as Ha Hq.
  destruct s as [|b s]; [done|]. cbn [ci_prefix]. by rewrite Ha, (IH q' s Hq).
Qed.

Lemma ci_contains_lower q q' s :
  lower_str q = lower_str q' → ci_contains q s = ci_contains q' s.
Proof.
  intros H. induction s as [|b s IH]; cbn [ci_contains];
    by rewrite (ci_prefix_lower _ _ _ H), ?IH.
Qed.

Lemma spec_selected_lower q q' d :
  lower_str q = lower_str q' → spec_selected q d = spec_selected q' d.
Proof.
  intros H. unfold spec_selected.
  assert (Ho : ∀ v, occurs_in q v = occurs_in q' v).
  { intros [[| | s | l |]|]; cbn [occurs_in]; try done.
    - by apply ci_contains_lower.
    - induction l as [|t l IH]; [done|]. cbn [existsb].
      by rewrite (ci_contains_lower _ _ _ H), IH. }
  by rewrite !Ho.
Qed.

(** X16: the letter case of the query does not matter: two queries of
    literal characters that differ only in case give the same answer. *)
Theorem list_videos_query_case (w : World) (q q' : string) :
  Py.truthy q = true →
  string_forall literal_char q = true →
  string_forall literal_char q' = true →
  lower_str q = lower_str q' →
  list_videos w (Some q) = list_videos w (Some q').
Proof.
  intros Ht Hq Hq' Hl.
  assert (Ht' : Py.truthy q' = true).
  { destruct q' as [|c r]; [|done]. by destruct q. }
  rewrite !list_videos_literal by done.
  f_equal. f_equal. apply filter_ext. intros d. by apply spec_selected_lower.
Qed.

Lemma list_videos_query_case_witness :
  list_videos demo_world2 (Some "DoG") = list_videos demo_world2 (Some "dOg").
Proof.
  apply (list_videos_query_case demo_world2 "DoG" "dOg"); reflexivity.
Defined.







(** X19: a record can be found by its tags as soon as it is uploaded: a
    literal query that occurs, letter case apart, in one of the parsed
    tags lists the new record. *)
Theorem upload_then_search_tag e w file title description tags id w' (q t : string) :
  upload_video e w file title description tags = (Return id, w') →
  t ∈ parse_tags tags →
  Py.truthy q = true →
  string_forall literal_char q = true →
  ci_substring q t →
  ∃ l out, list_videos w' (Some q) = Some l ∧ out ∈ l ∧ out_id out = id.
Proof.
  intros H Ht Hq Hlit Hsub.
  destruct (upload_video_Return _ _ _ _ _ _ _ _ H)
    as (ct & oid & now & _ & _ & _ & _ & _ & -> & ->).
  pose proof (uploaded_document_fields e file title description tags ct oid now)
    as (Hid & _ & _ & _ & _ & _ & Htg & _).
  set (d := uploaded_document e file title description tags ct oid now) in *.
  rewrite list_videos_literal by done.
  eexists _, (project d). split; [reflexivity|]. split.
  - apply list_elem_of_In, in_map_iff. exists d. split; [done|].
    apply filter_In. split.
    + cbn [video]. apply in_or_app. right. by left.
    + unfold spec_selected. rewrite Htg. cbn [occurs_in].
      rewrite !orb_true_iff. right. apply existsb_exists. exists t.
      split; [by apply list_elem_of_In|by apply ci_contains_spec].
  - unfold project. cbn [out_id]. by rewrite Hid.
Qed.

Lemma upload_then_search_tag_witness :
  ∃ l out, list_videos demo_world2 (Some "PET") = Some l
           ∧ out ∈ l ∧ out_id out = "000000000000000000001001".
Proof.
  apply (upload_then_search_tag demo_env2 demo_world demo_file (Some "Dog") None
           (Some "pets") "000000000000000000001001" demo_world2 "PET" "pets").
  - reflexivity.
  - apply list_elem_of_here.
  - reflexivity.
  - reflexivity.
  - exists "", "s". reflexivity.
Defined.

(** ** The errors of the handlers *)



(** ** The diagnostic route *)



(** X23: the diagnosis says "Connected & Working" exactly when there is a
    database and its collections could be listed, and "Connected" as the
    connection status exactly when there is a database, whether the listing
    worked or not; a failing listing leaves the list of collections
    empty. *)
Theorem test_database_status (db : option Diagnostic.Database) (url : option string) :
  (Diagnostic.database (Diagnostic.test_database db url) = "✅ Connected & Working"
     ↔ ∃ d names, db = Some d ∧ Diagnostic.list_collection_names d = Diagnostic.Listed names)
  ∧ (Diagnostic.connection_status (Diagnostic.test_database db url) = "Connected"
     ↔ ∃ d, db = Some d)
  ∧ (∀ d e, db = Some d →
       Diagnostic.list_collection_names d = Diagnostic.ListingFailed e →
       Diagnostic.collections (Diagnostic.test_database db url) = []).
Proof.
  unfold Diagnostic.test_database. destruct db as [d|].
  - destruct (Diagnostic.list_collection_names d) as [names|e] eqn:Hl;
      cbn [Diagnostic.database Diagnostic.connection_status Diagnostic.collections].
    + split; [|split].
      * split; [intros _; by exists d, names|done].
      * split; [intros _; by exists d|done].
      * intros d' e [= <-] He. congruence.
    + split; [|split].
      * split.
        -- intros H. apply (f_equal (Diagnostic.str_take 2)) in H.
           vm_compute in H. discriminate H.
        -- intros (d' & names & [= <-] & Hn). congruence.
      * split; [intros _; by exists d|done].
      * done.
  - cbn [Diagnostic.database Diagnostic.connection_status Diagnostic.collections].
    split; [|split].
    + split; [discriminate|]. by intros (d & names & ? & _).
    + split; [discriminate|]. by intros (d & ?).
    + done.
Qed.

Lemma test_database_status_witness :
  Diagnostic.collections
    (Diagnostic.test_database
       (Some (Diagnostic.mkDatabase None (Diagnostic.ListingFailed "timed out")))
       (Some "mongodb://db")) = []
  ∧ ∃ d, Some (Diagnostic.mkDatabase None (Diagnostic.ListingFailed "timed out")) = Some d.
Proof.
  split.
  - apply (proj2 (proj2 (test_database_status
             (Some (Diagnostic.mkDatabase None (Diagnostic.ListingFailed "timed out")))
             (Some "mongodb://db")))
             (Diagnostic.mkDatabase None (Diagnostic.ListingFailed "timed out"))
             "timed out"); reflexivity.
  - apply (proj1 (proj1 (proj2 (test_database_status
             (Some (Diagnostic.mkDatabase None (Diagnostic.ListingFailed "timed out")))
             (Some "mongodb://db"))))).
    reflexivity.
Defined.

(** ** From the listing to a view *)

Lemma find_one_elem c d : d ∈ c → is_Some (Mongo.find_one c (_id d)).
Proof.
  induction c as [|x c IH]; [by intros ?%elem_of_nil|].
  rewrite find_one_cons. case_decide; [eauto|].
  intros [->|Hin]%elem_of_cons; [done|by apply IH].
Qed.

(** X24: the identifiers the listing shows are good for the view route:
    with bson's rule for identifiers, viewing the identifier of any listed
    entry is answered neither with the error for a malformed identifier nor
    with [NotFound]. *)
Theorem list_then_view (w : World) (l : list VideoOut) (out : VideoOut) :
  Forall (λ d, (_id d < 2 ^ 96)%N) (video w) →
  list_videos w None = Some l →
  out ∈ l →
  String.length (out_id out) = 24%nat
  ∧ (get_video ObjectId_of_hex w (out_id out)).1 ≠ Raise InvalidIdentifier
  ∧ is_NotFound (get_video ObjectId_of_hex w (out_id out)).1 = false.
Proof.
  intros Hb Hl Hin. injection Hl as <-.
  apply list_elem_of_In, in_map_iff in Hin as (d & <- & Hd). apply list_elem_of_In in Hd.
  rewrite Forall_forall in Hb.
  cbn [project out_id]. split; [apply oid_str_length|].
  unfold get_video. rewrite (ObjectId_roundtrip _ (Hb _ Hd)).
  destruct (find_one_elem _ _ Hd) as [d0 Hf].
  destruct (countable_views d0) eqn:Hc.
  - destruct (get_video_store_found _ _ _ Hf Hc) as (pre & post & _ & _ & ->). done.
  - by rewrite (get_video_store_uncountable _ _ _ Hf Hc).
Qed.

Lemma list_then_view_witness :
  String.length (out_id (project demo_doc)) = 24%nat
  ∧ (get_video ObjectId_of_hex demo_world2 (out_id (project demo_doc))).1
    ≠ Raise InvalidIdentifier
  ∧ is_NotFound (get_video ObjectId_of_hex demo_world2 (out_id (project demo_doc))).1
    = false.
Proof.
  apply (list_then_view demo_world2
           (project <$> video demo_world2) (project demo_doc)).
  - repeat constructor.
  - reflexivity.
  - apply list_elem_of_here.
Defined.
